(** * NES CHR tools: tile decoding, palette resolution, rasterising, sheets

    A shallow embedding of [tools/convert_chr_to_png.py] and
    [tools/extract_chr.py].  Python integers are [Z], [bytes] objects are
    lists of [Byte.byte] (indexing one yields an integer), exceptions are
    the [Raise] branch of [result], and the Pillow image that the code
    mutates in place is threaded through the loops as explicit state. *)

From Stdlib Require Import ZArith List Lia Bool.
From Stdlib.Strings Require Import Byte.
From stdpp Require Import base list numbers.
Import ListNotations.
Open Scope Z_scope.

(** ** Python values and control flow *)

Module Py.

(** The exceptions the embedded code can raise.  [ValueError_rom] is the
    [ValueError] of [extract_chr]; its message is formatted from exactly
    the three integers recorded here.  The other two [ValueError]s are
    Pillow's: a negative size given to [Image.new], and an image of zero
    width or height given to [Image.save]. *)
Inductive exn : Type :=
| IndexError
| ZeroDivisionError
| ValueError_rom (address size rom_size : Z)
| ValueError_image_size
| ValueError_save_empty.

Inductive result (A : Type) : Type :=
| Ok (a : A)
| Raise (e : exn).
Arguments Ok {A} a.
Arguments Raise {A} e.

Definition bind {A B} (m : result A) (k : A -> result B) : result B :=
  match m with
  | Ok a => k a
  | Raise e => Raise e
  end.

Definition len {A} (l : list A) : Z := Z.of_nat (length l).

(** [l[i]]: a negative index counts from the end; out of range raises. *)
Definition index {A} (l : list A) (i : Z) : result A :=
  let j := if i <? 0 then i + len l else i in
  if (0 <=? j) && (j <? len l) then
    match l !! Z.to_nat j with
    | Some a => Ok a
    | None => Raise IndexError
    end
  else Raise IndexError.

(** A slice bound: negative bounds count from the end, then the bound is
    clamped to [0, len]. *)
Definition bound (n i : Z) : Z :=
  let j := if i <? 0 then i + n else i in
  Z.max 0 (Z.min n j).

(** [l[a:b]]; never raises. *)
Definition slice {A} (l : list A) (a b : Z) : list A :=
  let lo := bound (len l) a in
  let hi := bound (len l) b in
  take (Z.to_nat (hi - lo)) (drop (Z.to_nat lo) l).

(** [range(n)] *)
Definition range (n : Z) : list Z := map Z.of_nat (seq 0 (Z.to_nat n)).

(** [for x in xs: body], the loop body updating a state or raising. *)
Fixpoint for_each {S} (xs : list Z) (body : Z -> S -> result S) (s : S)
  : result S :=
  match xs with
  | [] => Ok s
  | x :: xs' => bind (body x s) (for_each xs' body)
  end.

(** A loop (or comprehension) that collects one value per element. *)
Fixpoint collect {A B} (f : A -> result B) (l : list A) : result (list B) :=
  match l with
  | [] => Ok []
  | a :: l' =>
      bind (f a) (fun b => bind (collect f l') (fun bs => Ok (b :: bs)))
  end.

(** Floor division and modulo; a zero divisor raises. *)
Definition floordiv (a b : Z) : result Z :=
  if b =? 0 then Raise ZeroDivisionError else Ok (a / b).

Definition modulo (a b : Z) : result Z :=
  if b =? 0 then Raise ZeroDivisionError else Ok (a mod b).

End Py.

Import Py.

Notation "'let*' x ':=' m 'in' k" := (bind m (fun x => k))
  (at level 10, x name, m at level 100, k at level 200, only parsing).

Abbreviation bytes := (list Byte.byte).

(** The integer a [bytes] object yields when indexed. *)
Definition byte_val (b : Byte.byte) : Z := Z.of_N (Byte.to_N b).

Definition color : Type := Z * Z * Z.

(** ** tools/convert_chr_to_png.py *)

Definition NES_PALETTE : list color :=
  [ (0x62, 0x62, 0x62); (0x00, 0x1f, 0xb2); (0x21, 0x0c, 0xa0); (0x44, 0x00, 0x96);
    (0x73, 0x00, 0x6b); (0x80, 0x00, 0x2e); (0x6f, 0x0f, 0x00); (0x4c, 0x1e, 0x00);
    (0x19, 0x32, 0x00); (0x00, 0x3b, 0x00); (0x00, 0x3a, 0x1e); (0x00, 0x32, 0x5d);
    (0x00, 0x00, 0x00); (0x00, 0x00, 0x00); (0x00, 0x00, 0x00); (0x00, 0x00, 0x00);
    (0xb6, 0xb6, 0xb6); (0x10, 0x5c, 0xe7); (0x48, 0x3c, 0xdb); (0x74, 0x2a, 0xd0);
    (0xa7, 0x25, 0x9f); (0xb5, 0x2e, 0x5a); (0xa0, 0x46, 0x17); (0x79, 0x57, 0x00);
    (0x46, 0x6e, 0x00); (0x27, 0x78, 0x00); (0x00, 0x76, 0x3e); (0x00, 0x6e, 0x8a);
    (0x00, 0x00, 0x00); (0x00, 0x00, 0x00); (0x00, 0x00, 0x00); (0x00, 0x00, 0x00);
    (0xff, 0xff, 0xff); (0x5f, 0xa8, 0xff); (0x8f, 0x8a, 0xff); (0xbc, 0x78, 0xff);
    (0xec, 0x71, 0xff); (0xff, 0x76, 0xba); (0xff, 0x91, 0x6f); (0xff, 0xa5, 0x29);
    (0xcc, 0xbf, 0x00); (0xa4, 0xca, 0x1c); (0x6d, 0xd8, 0x64); (0x3f, 0xd4, 0xc5);
    (0x00, 0x00, 0x00); (0x00, 0x00, 0x00); (0x00, 0x00, 0x00); (0x00, 0x00, 0x00);
    (0xff, 0xff, 0xff); (0xbd, 0xe2, 0xff); (0xd1, 0xd6, 0xff); (0xe5, 0xce, 0xff);
    (0xf8, 0xcc, 0xff); (0xff, 0xce, 0xed); (0xff, 0xd9, 0xd1); (0xff, 0xe0, 0xbf);
    (0xea, 0xea, 0x9e); (0xd8, 0xef, 0x9e); (0xc4, 0xf3, 0xbd); (0xb7, 0xf2, 0xe6);
    (0x00, 0x00, 0x00); (0x00, 0x00, 0x00); (0x00, 0x00, 0x00); (0x00, 0x00, 0x00) ].

(** The body of the inner loop of [decode_tile]: the pixel of column [x]
    from the two plane bytes of its row. *)
Definition decode_pixel (low_byte high_byte x : Z) : Z :=
  let bit := 7 - x in
  let low_bit := Z.land (Z.shiftr low_byte bit) 1 in
  let high_bit := Z.land (Z.shiftr high_byte bit) 1 in
  Z.lor (Z.shiftl high_bit 1) low_bit.

Definition decode_tile (chr_data : bytes) (tile_index : Z)
  : result (list (list Z)) :=
  let offset := tile_index * 16 in
  let tile_low := slice chr_data offset (offset + 8) in
  let tile_high := slice chr_data (offset + 8) (offset + 16) in
  collect (fun y =>
             let* low_byte := index tile_low y in
             let* high_byte := index tile_high y in
             Ok (map (decode_pixel (byte_val low_byte) (byte_val high_byte))
                     (range 8)))
          (range 8).

Definition get_palette_colors (palette_indices : list Z) : result (list color) :=
  collect (fun i => index NES_PALETTE (Z.land i 0x3f)) palette_indices.

(** ** The part of Pillow the code uses

    An ['RGB'] image is its size and its pixels in row-major order.
    [Image.new] fills it with black and refuses a negative size; pixel
    access ([img.load()]) writes one pixel, counting a negative coordinate
    from the far edge and raising [IndexError] outside the image, and
    stores each channel of the colour clamped to 0..255;
    [Image.paste] copies the source over the destination at an offset and
    clips it at the destination's edges; [Image.save] refuses an image of
    zero width or height. *)

Module Pil.

Record Image : Type := mkImage { width : Z; height : Z; data : list color }.

Definition black : color := (0, 0, 0).

Definition new (w h : Z) : result Image :=
  if (w <? 0) || (h <? 0) then Raise ValueError_image_size
  else Ok (mkImage w h (replicate (Z.to_nat (w * h)) black)).

Definition inside (img : Image) (x y : Z) : bool :=
  (0 <=? x) && (x <? width img) && (0 <=? y) && (y <? height img).

Definition getpixel (img : Image) (x y : Z) : option color :=
  if inside img x y then data img !! Z.to_nat (y * width img + x) else None.

(** One channel as an 8-bit value. *)
Definition clip8 (v : Z) : Z := Z.max 0 (Z.min 255 v).

(** The pixel value stored for a colour tuple. *)
Definition ink (c : color) : color :=
  let '(r, g, b) := c in (clip8 r, clip8 g, clip8 b).

Definition putpixel (img : Image) (x y : Z) (c : color) : result Image :=
  let x' := if x <? 0 then width img + x else x in
  let y' := if y <? 0 then height img + y else y in
  if inside img x' y' then
    Ok (mkImage (width img) (height img)
          (<[Z.to_nat (y' * width img + x') := ink c]> (data img)))
  else Raise IndexError.

Definition paste (dst src : Image) (x y : Z) : Image :=
  mkImage (width dst) (height dst)
    (imap (fun k old =>
             let px := Z.of_nat k mod width dst in
             let py := Z.of_nat k / width dst in
             match getpixel src (px - x) (py - y) with
             | Some c => c
             | None => old
             end)
          (data dst)).

(** [img.save(path)]: what can go wrong with the image itself. *)
Definition save (img : Image) : result unit :=
  if (width img =? 0) || (height img =? 0) then Raise ValueError_save_empty
  else Ok tt.

End Pil.

Import Pil.

Definition create_tile_image (tile_pixels : list (list Z)) (palette : list color)
    (scale : Z) : result Image :=
  let* img := new (8 * scale) (8 * scale) in
  for_each (range 8) (fun y =>
    for_each (range 8) (fun x pixels =>
      let* row := index tile_pixels y in
      let* v := index row x in
      let* color := index palette v in
      for_each (range scale) (fun dy =>
        for_each (range scale) (fun dx pixels =>
          putpixel pixels (x * scale + dx) (y * scale + dy) color))
        pixels))
    img.

(** The sheet under construction together with the history of the
    [sheet.paste(tile_img, (x, y))] calls made so far, each recorded as
    [(tile_idx, x, y)].  The history is a ghost component: the code keeps
    only the sheet. *)
Record sheet_state : Type :=
  mkSheetState { sheet : Image; pasted : list (Z * Z * Z) }.

Definition create_sprite_sheet_traced (chr_data : bytes) (palette : list color)
    (tiles_per_row scale : Z) : result sheet_state :=
  let num_tiles := len chr_data / 16 in
  let* rows := floordiv (num_tiles + tiles_per_row - 1) tiles_per_row in
  let tile_size := 8 * scale in
  let sheet_width := tiles_per_row * tile_size in
  let sheet_height := rows * tile_size in
  let* sheet0 := new sheet_width sheet_height in
  for_each (range num_tiles) (fun tile_idx st =>
      let* tile_pixels := decode_tile chr_data tile_idx in
      let* tile_img := create_tile_image tile_pixels palette scale in
      let* row := floordiv tile_idx tiles_per_row in
      let* col := modulo tile_idx tiles_per_row in
      let x := col * tile_size in
      let y := row * tile_size in
      Ok (mkSheetState (paste (sheet st) tile_img x y)
                       (pasted st ++ [(tile_idx, x, y)])))
    (mkSheetState sheet0 []).

Definition create_sprite_sheet (chr_data : bytes) (palette : list color)
    (tiles_per_row scale : Z) : result Image :=
  let* st := create_sprite_sheet_traced chr_data palette tiles_per_row scale in
  Ok (sheet st).

(** What a run of [main] writes, in order, and how the process ends.  The
    arguments are taken as parsed; [input] is the content of the input
    file, [None] when the path does not exist. *)
Inductive output : Type :=
| Stderr_input_not_found
| Stderr_warning_length (n : Z)
| Stdout_converting (num_tiles : Z)
| File_saved (img : Image)
| Stdout_saved
| Stdout_dimensions (w h : Z).

Inductive exit_status : Type :=
| Exit_ok
| Exit_code (n : Z)
| Exit_uncaught (e : exn).

Definition main (input : option bytes) (palette_arg : list Z)
    (tiles_per_row scale : Z) : list output * exit_status :=
  match input with
  | None => ([Stderr_input_not_found], Exit_code 1)
  | Some chr_data0 =>
      let truncated := negb (len chr_data0 mod 16 =? 0) in
      let warning :=
        if truncated then [Stderr_warning_length (len chr_data0)] else [] in
      let chr_data :=
        if truncated
        then slice chr_data0 0 (len chr_data0 - len chr_data0 mod 16)
        else chr_data0 in
      match get_palette_colors palette_arg with
      | Raise e => (warning, Exit_uncaught e)
      | Ok palette =>
          let out := warning ++ [Stdout_converting (len chr_data / 16)] in
          match create_sprite_sheet chr_data palette tiles_per_row scale with
          | Raise e => (out, Exit_uncaught e)
          | Ok sheet =>
              match save sheet with
              | Raise e => (out, Exit_uncaught e)
              | Ok _ =>
                  (out ++ [File_saved sheet; Stdout_saved;
                           Stdout_dimensions (width sheet) (height sheet)],
                   Exit_ok)
              end
          end
      end
  end.

(** ** tools/extract_chr.py *)

Definition extract_chr (rom_data : bytes) (address size : Z) : result bytes :=
  if address + size >? len rom_data then
    Raise (ValueError_rom address size (len rom_data))
  else Ok (slice rom_data address (address + size)).

Definition get_prg_bank_address (bank_number : Z) : Z :=
  let header_size := 16 in
  let bank_size := 0x4000 in
  header_size + bank_number * bank_size.

Definition extract_chr_bank (rom_data : bytes) (bank_number : Z) : result bytes :=
  let address := get_prg_bank_address bank_number in
  extract_chr rom_data address 8192.

(** [main] of [tools/extract_chr.py].  The arguments are taken as parsed;
    [rom] is the content of the ROM file, [None] when the path does not
    exist.  [File_written] is [output_path.write_bytes(chr_data)]. *)
Module ExtractChr.

Inductive output : Type :=
| Stderr_rom_not_found
| Stderr_need_bank_or_address
| Stdout_extracting (size address : Z)
| File_written (chr_data : bytes)
| Stdout_extracted (n : Z)
| Stdout_tiles (n : Z)
| Stderr_error (e : exn).

(** [except ValueError] *)
Definition is_ValueError (e : exn) : bool :=
  match e with
  | ValueError_rom _ _ _ | ValueError_image_size | ValueError_save_empty => true
  | IndexError | ZeroDivisionError => false
  end.

Definition main (rom : option bytes) (bank address : option Z) (size : Z)
  : list output * exit_status :=
  match rom with
  | None => ([Stderr_rom_not_found], Exit_code 1)
  | Some rom_data =>
      let chosen :=
        match address with
        | Some a => Some a
        | None =>
            match bank with
            | Some b => Some (get_prg_bank_address b)
            | None => None
            end
        end in
      match chosen with
      | None => ([Stderr_need_bank_or_address], Exit_code 1)
      | Some address =>
          let out := [Stdout_extracting size address] in
          match extract_chr rom_data address size with
          | Ok chr_data =>
              (out ++ [File_written chr_data; Stdout_extracted (len chr_data);
                       Stdout_tiles (len chr_data / 16)],
               Exit_ok)
          | Raise e =>
              if is_ValueError e then (out ++ [Stderr_error e], Exit_code 1)
              else (out, Exit_uncaught e)
          end
      end
  end.

End ExtractChr.

(** ** tools/extract_all.py

    [run_extractor] starts [extract_chr.py] in a subprocess; here the
    subprocess is a call of [ExtractChr.main] on the same ROM file with the
    arguments the command line carries, and it reports whether the exit
    status was 0 together with the file the subprocess wrote, if any. *)
Module ExtractAll.

(** The keys of [CHR_BANKS]; asset [name] is written to [raw/name.chr]. *)
Inductive asset : Type := player_sprites | bg_tiles_11_12 | bg_tiles_12_13.

Record bank_info : Type :=
  mkBankInfo { bank : Z; address : option Z; size : Z }.

Definition CHR_BANKS : list (asset * bank_info) :=
  [ (player_sprites, mkBankInfo 10 None 8192);
    (bg_tiles_11_12, mkBankInfo 11 None 8192);
    (bg_tiles_12_13, mkBankInfo 12 None 8192) ].

Inductive event : Type :=
| Stderr_rom_not_found
| File_raw (name : asset) (chr_data : bytes)
| Warning_failed (name : asset).

(** The file an [extract_chr.py] run wrote. *)
Fixpoint written (out : list ExtractChr.output) : option bytes :=
  match out with
  | [] => None
  | ExtractChr.File_written chr_data :: _ => Some chr_data
  | _ :: out' => written out'
  end.

Definition run_extractor (rom : option bytes) (info : bank_info)
  : bool * option bytes :=
  let '(out, status) :=
    ExtractChr.main rom (Some (bank info)) (address info) (size info) in
  (match status with Exit_ok => true | _ => false end, written out).

Definition extract_all (rom : option bytes) : list event * bool :=
  (flat_map (fun '(name, info) =>
               let '(ok, file) := run_extractor rom info in
               match file with
               | Some chr_data => [File_raw name chr_data]
               | None => []
               end
               ++ (if ok then [] else [Warning_failed name]))
            CHR_BANKS,
   true).

Definition main (rom : option bytes) : list event * exit_status :=
  match rom with
  | None => ([Stderr_rom_not_found], Exit_code 1)
  | Some _ =>
      let '(events, ok) := extract_all rom in
      (events, if ok then Exit_ok else Exit_code 1)
  end.

End ExtractAll.

(** ** Specification vocabulary *)

(** The cell at column [x], row [y] of a grid, when there is one. *)
Definition cell (grid : list (list Z)) (x y : Z) : option Z :=
  match grid !! Z.to_nat y with
  | Some row => row !! Z.to_nat x
  | None => None
  end.

(** Bit [k] of the integer [n], as 0 or 1. *)
Definition bit (n k : Z) : Z := Z.b2z (Z.testbit n k).

(** The integer at position [k] of a buffer (0 outside it). *)
Definition byte_at (buf : bytes) (k : Z) : Z :=
  match buf !! Z.to_nat k with
  | Some b => byte_val b
  | None => 0
  end.

(** An 8x8 grid of colour indices 0..3. *)
Definition index_grid (grid : list (list Z)) : Prop :=
  length grid = 8%nat /\
  Forall (fun row => length row = 8%nat /\ Forall (fun v => 0 <= v <= 3) row) grid.

(** The grid [decode_tile] builds for a tile that lies inside the buffer. *)
Definition tile_grid (chr_data : bytes) (tile_index : Z) : list (list Z) :=
  map (fun y => map (decode_pixel (byte_at chr_data (tile_index * 16 + y))
                                  (byte_at chr_data (tile_index * 16 + 8 + y)))
                    (range 8))
      (range 8).

(** The System Color Table entry an index resolves to. *)
Definition resolve (i : Z) : color :=
  nth (Z.to_nat (i mod 64)) NES_PALETTE black.

(** A well-formed image stores exactly [width * height] pixels. *)
Definition wf_image (img : Image) : Prop :=
  0 <= width img /\ 0 <= height img /\
  length (data img) = Z.to_nat (width img * height img).

(** [palette[tile_pixels[y][x]]] *)
Definition tile_color (tile_pixels : list (list Z)) (palette : list color)
    (x y : Z) : color :=
  match cell tile_pixels x y with
  | Some v => nth (Z.to_nat v) palette black
  | None => black
  end.

(** Nearest-neighbour reduction by the integer factor [k]: pixel [(x, y)]
    of the result is the pixel at offset [(ox, oy)] inside block [(x, y)]
    of the source. *)
Definition downsample (k ox oy : Z) (img : Image) : Image :=
  let w := width img / k in
  let h := height img / k in
  mkImage w h
    (map (fun j => match getpixel img (j mod w * k + ox) (j / w * k + oy) with
                   | Some c => c
                   | None => black
                   end)
         (range (w * h))).

(** The [sheet.paste] call made for tile [i]. *)
Definition placement (tiles_per_row scale i : Z) : Z * Z * Z :=
  (i, i mod tiles_per_row * (8 * scale), i / tiles_per_row * (8 * scale)).

(** The colour of sheet pixel [(px, py)] once the first [k] tiles are
    pasted: the pixel lies in the grid cell of tile
    [(py / tile_size) * tiles_per_row + px / tile_size] and shows that
    tile if it is one of the first [k], the black background otherwise. *)
Definition sheet_pixel (chr_data : bytes) (palette : list color)
    (tiles_per_row scale k px py : Z) : color :=
  let tile_size := 8 * scale in
  let i := py / tile_size * tiles_per_row + px / tile_size in
  if i <? k then
    ink (tile_color (tile_grid chr_data i) palette
                    (px mod tile_size / scale) (py mod tile_size / scale))
  else black.

(** The colour the finished raster of a tile has at pixel [(px, py)]. *)
Definition raster_target (tile_pixels : list (list Z)) (palette : list color)
    (scale px py : Z) : color :=
  ink (tile_color tile_pixels palette (px / scale) (py / scale)).

(** Loop invariant of [create_tile_image]: the raster has its final size
    and every pixel of the region [D] already has its final colour. *)
Definition raster_painted (tile_pixels : list (list Z)) (palette : list color)
    (scale : Z) (D : Z -> Z -> Prop) (img : Image) : Prop :=
  (wf_image img /\ width img = 8 * scale /\ height img = 8 * scale) /\
  forall px py, D px py ->
    getpixel img px py = Some (raster_target tile_pixels palette scale px py).

(** [rows] in [create_sprite_sheet], when [tiles_per_row] is not 0. *)
Definition sheet_rows (chr_data : bytes) (tiles_per_row : Z) : Z :=
  (len chr_data / 16 + tiles_per_row - 1) / tiles_per_row.

(** Loop invariant of [create_sprite_sheet]: the state of the sheet after
    [k] iterations of the tile loop. *)
Definition sheet_composed (chr_data : bytes) (palette : list color)
    (tiles_per_row scale k : Z) (st : sheet_state) : Prop :=
  wf_image (sheet st) /\
  width (sheet st) = tiles_per_row * (8 * scale) /\
  height (sheet st) = sheet_rows chr_data tiles_per_row * (8 * scale) /\
  pasted st = map (placement tiles_per_row scale) (range k) /\
  forall px py,
    0 <= px < tiles_per_row * (8 * scale) ->
    0 <= py < sheet_rows chr_data tiles_per_row * (8 * scale) ->
    getpixel (sheet st) px py
    = Some (sheet_pixel chr_data palette tiles_per_row scale k px py).

(** ** Sample inputs *)

(** A tile record whose only set bit is bit 7 of the low plane at row 0. *)
Definition tile_0x80 : bytes :=
  [x80; x00; x00; x00; x00; x00; x00; x00;
   x00; x00; x00; x00; x00; x00; x00; x00].

(** The grid of [tile_0x80]. *)
Definition grid_0x80 : list (list Z) :=
  [[1; 0; 0; 0; 0; 0; 0; 0]; [0; 0; 0; 0; 0; 0; 0; 0];
   [0; 0; 0; 0; 0; 0; 0; 0]; [0; 0; 0; 0; 0; 0; 0; 0];
   [0; 0; 0; 0; 0; 0; 0; 0]; [0; 0; 0; 0; 0; 0; 0; 0];
   [0; 0; 0; 0; 0; 0; 0; 0]; [0; 0; 0; 0; 0; 0; 0; 0]].

(** The colours of the palette indices [0x0f, 0x20, 0x28, 0x30]. *)
Definition default_palette : list color :=
  [(0x00, 0x00, 0x00); (0xff, 0xff, 0xff); (0xcc, 0xbf, 0x00); (0xff, 0xff, 0xff)].

(** One complete tile and one trailing byte. *)
Definition buffer_17 : bytes := tile_0x80 ++ [xff].

Definition buffer_2_tiles : bytes := tile_0x80 ++ tile_0x80.

Definition rom_2 : bytes := [x2a; x2b].

(** A ROM that holds its header and the first 8 KiB of bank 0. *)
Definition rom_bank_0 : bytes := replicate (Z.to_nat 8208) x00.

Ltac forall_list tac :=
  repeat first [apply Forall_nil_2 | apply Forall_cons_2; [tac|]].

(** ** Vocabulary of the further properties *)

(** The byte with the given bits, most significant first. *)
Definition byte_of_bits (b7 b6 b5 b4 b3 b2 b1 b0 : Z) : Byte.byte :=
  match Byte.of_N (Z.to_N (128 * b7 + 64 * b6 + 32 * b5 + 16 * b4
                           + 8 * b3 + 4 * b2 + 2 * b1 + b0)) with
  | Some b => b
  | None => x00
  end.

(** An 8-bit RGB triple. *)
Definition is_rgb (c : color) : Prop :=
  let '(r, g, b) := c in 0 <= r <= 255 /\ 0 <= g <= 255 /\ 0 <= b <= 255.


(** [extract_chr.py] wrote an output file. *)
Definition written_file (out : list ExtractChr.output) : Prop :=
  exists chr_data, In (ExtractChr.File_written chr_data) out.

(** What [extract_all] does for one entry of [CHR_BANKS]: the 8 KiB at
    the start of PRG bank [b] if the ROM holds them, a warning if not. *)
Definition bank_event (rom : bytes) (name : ExtractAll.asset) (b : Z)
  : list ExtractAll.event :=
  if 16 + b * 0x4000 + 8192 <=? len rom
  then [ExtractAll.File_raw name
          (take (Z.to_nat 8192) (drop (Z.to_nat (16 + b * 0x4000)) rom))]
  else [ExtractAll.Warning_failed name].

(** * Properties *)

(** ** Python lists, slices and loops *)

Section PyFacts.
Context {A : Type}.
Implicit Types (l : list A) (i a b : Z).

Lemma len_nonneg l : 0 <= len l.
Proof. unfold len. lia. Qed.

Lemma index_nonneg l i :
  0 <= i ->
  index l i = match l !! Z.to_nat i with Some v => Ok v | None => Raise IndexError end.
Proof.
  intros Hi. unfold index.
  destruct (i <? 0) eqn:Hneg; [lia|].
  destruct (l !! Z.to_nat i) as [v|] eqn:Hl.
  - apply lookup_lt_Some in Hl.
    replace ((0 <=? i) && (i <? len l)) with true; [reflexivity|].
    symmetry. apply andb_true_iff. unfold len. split; lia.
  - now destruct ((0 <=? i) && (i <? len l)).
Qed.

Lemma index_Ok l i v :
  0 <= i -> l !! Z.to_nat i = Some v -> index l i = Ok v.
Proof. intros Hi Hl. rewrite index_nonneg, Hl; auto. Qed.

Lemma bound_inside n i : 0 <= i <= n -> bound n i = i.
Proof. intros H. unfold bound. destruct (i <? 0) eqn:E; lia. Qed.

Lemma slice_inside l a b :
  0 <= a -> a <= b -> b <= len l ->
  slice l a b = take (Z.to_nat (b - a)) (drop (Z.to_nat a) l).
Proof.
  intros Ha Hab Hb. unfold slice. rewrite !bound_inside by lia. reflexivity.
Qed.

Lemma slice_inside_length l a b :
  0 <= a -> a <= b -> b <= len l -> len (slice l a b) = b - a.
Proof.
  intros Ha Hab Hb. rewrite slice_inside by assumption.
  unfold len in *. rewrite length_take, length_drop. lia.
Qed.

Lemma slice_inside_lookup l a b k :
  0 <= a -> a <= b -> b <= len l -> 0 <= k < b - a ->
  slice l a b !! Z.to_nat k = l !! Z.to_nat (a + k).
Proof.
  intros Ha Hab Hb Hk. rewrite slice_inside by assumption.
  rewrite lookup_take_lt by lia. rewrite lookup_drop.
  f_equal. lia.
Qed.

Lemma slice_prefix l b :
  0 <= b <= len l -> slice l 0 b = take (Z.to_nat b) l.
Proof.
  intros H. rewrite slice_inside by lia. rewrite Z.sub_0_r. reflexivity.
Qed.

End PyFacts.

Lemma range_nonpos n : n <= 0 -> range n = [].
Proof. intros H. unfold range. replace (Z.to_nat n) with 0%nat by lia. reflexivity. Qed.

Lemma range_succ n : 0 <= n -> range (n + 1) = range n ++ [n].
Proof.
  intros H. unfold range.
  replace (Z.to_nat (n + 1)) with (S (Z.to_nat n)) by lia.
  rewrite seq_S, map_app. simpl. now rewrite Z2Nat.id.
Qed.

Lemma range_length n : len (range n) = Z.max 0 n.
Proof. unfold len, range. rewrite length_map, length_seq. lia. Qed.

Lemma range_elem n k : In k (range n) <-> 0 <= k < n.
Proof.
  unfold range. rewrite in_map_iff. split.
  - intros (j & <- & Hj). apply in_seq in Hj. lia.
  - intros Hk. exists (Z.to_nat k). split; [lia|]. apply in_seq. lia.
Qed.

Lemma map_lookup {A B} (f : A -> B) (l : list A) (k : nat) :
  map f l !! k = option_map f (l !! k).
Proof.
  revert k. induction l as [|a l IH]; intros [|k]; simpl; auto.
Qed.

Lemma range_lookup n k : 0 <= k < n -> range n !! Z.to_nat k = Some k.
Proof.
  intros Hk. unfold range.
  rewrite map_lookup, lookup_seq_lt by lia. simpl. f_equal. lia.
Qed.

(** A comprehension whose element computation never raises is a [map]. *)
Lemma collect_map {A B} (f : A -> result B) (g : A -> B) (l : list A) :
  (forall a, In a l -> f a = Ok (g a)) -> collect f l = Ok (map g l).
Proof.
  induction l as [|a l IH]; intros H; simpl; [reflexivity|].
  rewrite (H a) by now left. simpl.
  rewrite IH by (intros; apply H; now right). reflexivity.
Qed.

Lemma for_each_app {S} (xs ys : list Z) (body : Z -> S -> result S) s :
  for_each (xs ++ ys) body s = bind (for_each xs body s) (for_each ys body).
Proof.
  revert s. induction xs as [|x xs IH]; intros s; simpl; [reflexivity|].
  destruct (body x s); simpl; auto.
Qed.

Lemma for_each_ext {S} (xs : list Z) (f g : Z -> S -> result S) s :
  (forall x s', In x xs -> f x s' = g x s') -> for_each xs f s = for_each xs g s.
Proof.
  revert s. induction xs as [|x xs IH]; intros s H; simpl; [reflexivity|].
  rewrite (H x s) by now left. destruct (g x s); simpl; [|reflexivity].
  apply IH. intros; apply H; now right.
Qed.

(** The loop rule for [for k in range(n)]: an invariant indexed by the
    number of iterations done, kept by every iteration, holds at the end,
    and the loop does not raise. *)
Lemma for_range_invariant {S} (I : Z -> S -> Prop) (n : Z)
    (body : Z -> S -> result S) (s0 : S) :
  I 0 s0 ->
  (forall k s, 0 <= k < n -> I k s -> exists s', body k s = Ok s' /\ I (k + 1) s') ->
  exists s', for_each (range n) body s0 = Ok s' /\ I (Z.max 0 n) s'.
Proof.
  intros H0 Hstep.
  destruct (Z.le_gt_cases n 0) as [Hn|Hn].
  { rewrite range_nonpos by assumption. exists s0. split; [reflexivity|].
    now replace (Z.max 0 n) with 0 by lia. }
  replace (Z.max 0 n) with n by lia.
  assert (Hgen : forall m, 0 <= m -> m <= n ->
            exists s', for_each (range m) body s0 = Ok s' /\ I m s').
  { intros m Hm. pattern m. apply natlike_ind; [| |assumption].
    - intros _. exists s0. split; [reflexivity|assumption].
    - intros k Hk IH Hle. destruct IH as (s1 & E1 & I1); [lia|].
      destruct (Hstep k s1) as (s2 & E2 & I2); [lia|assumption|].
      exists s2. split; [|assumption].
      unfold Z.succ. rewrite range_succ, for_each_app, E1 by assumption.
      simpl. rewrite E2. reflexivity. }
  apply Hgen; lia.
Qed.

(** ** Tile decoder *)

Lemma land_shiftr_bit n k : 0 <= k -> Z.land (Z.shiftr n k) 1 = bit n k.
Proof.
  intros Hk. unfold bit. rewrite Z.testbit_spec' by assumption.
  change 1 with (Z.ones 1) at 1. rewrite Z.land_ones by lia.
  rewrite Z.shiftr_div_pow2 by assumption. reflexivity.
Qed.

Lemma decode_pixel_bits low_byte high_byte x :
  x <= 7 ->
  decode_pixel low_byte high_byte x
  = Z.lor (Z.shiftl (bit high_byte (7 - x)) 1) (bit low_byte (7 - x)).
Proof.
  intros Hx. unfold decode_pixel. cbv zeta. rewrite !land_shiftr_bit by lia.
  reflexivity.
Qed.

Lemma decode_pixel_range low_byte high_byte x :
  x <= 7 -> 0 <= decode_pixel low_byte high_byte x <= 3.
Proof.
  intros Hx. rewrite decode_pixel_bits by assumption. unfold bit.
  destruct (Z.testbit high_byte (7 - x)), (Z.testbit low_byte (7 - x));
    cbv -[Z.le]; lia.
Qed.

Lemma decode_tile_inside (chr_data : bytes) (i : Z) :
  0 <= i -> (i + 1) * 16 <= len chr_data ->
  decode_tile chr_data i = Ok (tile_grid chr_data i).
Proof.
  intros Hi Hlen. unfold decode_tile, tile_grid. cbv zeta.
  apply collect_map. intros y Hy. apply range_elem in Hy.
  assert (Hlow : is_Some (chr_data !! Z.to_nat (i * 16 + y))).
  { apply lookup_lt_is_Some. unfold len in Hlen. lia. }
  assert (Hhigh : is_Some (chr_data !! Z.to_nat (i * 16 + 8 + y))).
  { apply lookup_lt_is_Some. unfold len in Hlen. lia. }
  destruct Hlow as [lo Hlo], Hhigh as [hi Hhi].
  rewrite (index_Ok _ y lo); [|lia|].
  2:{ rewrite slice_inside_lookup by lia. exact Hlo. }
  simpl. rewrite (index_Ok _ y hi); [|lia|].
  2:{ rewrite slice_inside_lookup by lia. exact Hhi. }
  simpl. unfold byte_at. rewrite Hlo, Hhi. reflexivity.
Qed.

Lemma tile_grid_cell (chr_data : bytes) (i x y : Z) :
  0 <= x < 8 -> 0 <= y < 8 ->
  cell (tile_grid chr_data i) x y
  = Some (decode_pixel (byte_at chr_data (i * 16 + y))
                       (byte_at chr_data (i * 16 + 8 + y)) x).
Proof.
  intros Hx Hy. unfold cell, tile_grid.
  rewrite map_lookup, range_lookup by assumption. cbn [option_map].
  rewrite map_lookup, range_lookup by assumption. reflexivity.
Qed.

Lemma tile_grid_index_grid (chr_data : bytes) (i : Z) :
  index_grid (tile_grid chr_data i).
Proof.
  unfold index_grid, tile_grid. split; [reflexivity|].
  apply Forall_forall. intros row Hrow.
  apply in_map_iff in Hrow. destruct Hrow as (y & <- & _).
  split; [reflexivity|].
  apply Forall_forall. intros v Hv.
  apply in_map_iff in Hv. destruct Hv as (x & <- & Hx).
  apply range_elem in Hx. apply decode_pixel_range. lia.
Qed.

(** C1. For every buffer and every (zero-based) tile index [i] with
    [(i+1)*16 <= len buffer], [decode_tile] returns an 8x8 grid whose cell
    at column [x], row [y] is [(high_bit << 1) | low_bit], where [low_bit]
    is bit [7-x] of buffer byte [i*16+y] and [high_bit] is bit [7-x] of
    buffer byte [i*16+8+y]; every cell is one of 0, 1, 2, 3. *)
Theorem decode_tile_spec (chr_data : bytes) (i : Z) :
  0 <= i -> (i + 1) * 16 <= len chr_data ->
  exists grid,
    decode_tile chr_data i = Ok grid /\
    length grid = 8%nat /\
    Forall (fun row => length row = 8%nat) grid /\
    forall x y, 0 <= x < 8 -> 0 <= y < 8 ->
      exists low_byte high_byte v,
        chr_data !! Z.to_nat (i * 16 + y) = Some low_byte /\
        chr_data !! Z.to_nat (i * 16 + 8 + y) = Some high_byte /\
        cell grid x y = Some v /\
        v = Z.lor (Z.shiftl (bit (byte_val high_byte) (7 - x)) 1)
                  (bit (byte_val low_byte) (7 - x)) /\
        (v = 0 \/ v = 1 \/ v = 2 \/ v = 3).
Proof.
  intros Hi Hlen. exists (tile_grid chr_data i).
  split; [now apply decode_tile_inside|].
  destruct (tile_grid_index_grid chr_data i) as [Hrows Hcells].
  split; [assumption|]. split.
  { eapply Forall_impl; [|exact Hcells]. now intros row [? _]. }
  intros x y Hx Hy.
  assert (Hlow : is_Some (chr_data !! Z.to_nat (i * 16 + y))).
  { apply lookup_lt_is_Some. unfold len in Hlen. lia. }
  assert (Hhigh : is_Some (chr_data !! Z.to_nat (i * 16 + 8 + y))).
  { apply lookup_lt_is_Some. unfold len in Hlen. lia. }
  destruct Hlow as [lo Hlo], Hhigh as [hi Hhi].
  exists lo, hi, (decode_pixel (byte_val lo) (byte_val hi) x).
  split; [assumption|]. split; [assumption|]. split.
  { rewrite tile_grid_cell by assumption. unfold byte_at.
    now rewrite Hlo, Hhi. }
  split; [apply decode_pixel_bits; lia|].
  pose proof (decode_pixel_range (byte_val lo) (byte_val hi) x). lia.
Qed.

Lemma decode_tile_spec_witness :
  exists grid, decode_tile tile_0x80 0 = Ok grid /\ cell grid 0 0 = Some 1.
Proof.
  destruct (decode_tile_spec tile_0x80 0) as (grid & E & _ & _ & H).
  - lia.
  - vm_compute. discriminate.
  - exists grid. split; [exact E|].
    destruct (H 0 0) as (lo & hi & v & Hlo & Hhi & Hc & Hv & _); [lia|lia|].
    vm_compute in Hlo, Hhi. injection Hlo as <-. injection Hhi as <-.
    rewrite Hc, Hv. reflexivity.
Defined.

(** A negative tile index is not a tile index: Python reads the slice
    bounds from the end of the buffer, and tile [-1] has an empty high
    plane. *)
Remark decode_tile_minus_one :
  decode_tile tile_0x80 (-1) = Raise IndexError.
Proof. reflexivity. Qed.

(** C2, as stated: row 0 is [[2,0,0,0,0,0,0,0]].  It is not: the low
    plane carries bit 0 of the pixel. *)
Lemma decode_row0_is_not_2 :
  ~ (exists grid, decode_tile tile_0x80 0 = Ok grid /\
                  grid !! 0%nat = Some [2; 0; 0; 0; 0; 0; 0; 0]).
Proof.
  intros (grid & E & Hrow). vm_compute in E. injection E as <-.
  vm_compute in Hrow. discriminate.
Qed.

(** C2, amended: for every 16-byte tile record whose low-plane byte at
    row 0 is [0b10000000] and whose high-plane byte at row 0 is 0, row 0
    of the decoded grid is [[1,0,0,0,0,0,0,0]]. *)
Theorem decode_row0_low_plane (tile : bytes) :
  length tile = 16%nat ->
  tile !! 0%nat = Some x80 -> tile !! 8%nat = Some x00 ->
  exists grid, decode_tile tile 0 = Ok grid /\
               grid !! 0%nat = Some [1; 0; 0; 0; 0; 0; 0; 0].
Proof.
  intros Hlen Hlo Hhi. exists (tile_grid tile 0).
  split; [apply decode_tile_inside; unfold len; lia|].
  unfold tile_grid. change (range 8) with [0; 1; 2; 3; 4; 5; 6; 7].
  cbn [map lookup list_lookup]. unfold byte_at.
  change (Z.to_nat (0 * 16 + 0)) with 0%nat.
  change (Z.to_nat (0 * 16 + 8 + 0)) with 8%nat.
  rewrite Hlo, Hhi. reflexivity.
Qed.

Lemma decode_row0_low_plane_witness :
  exists grid, decode_tile tile_0x80 0 = Ok grid /\
               grid !! 0%nat = Some [1; 0; 0; 0; 0; 0; 0; 0].
Proof. apply (decode_row0_low_plane tile_0x80); reflexivity. Defined.

(** ** Palette resolver *)

Lemma land_0x3f i : Z.land i 0x3f = i mod 64.
Proof. change 0x3f with (Z.ones 6). rewrite Z.land_ones by lia. reflexivity. Qed.

Lemma NES_PALETTE_length : length NES_PALETTE = 64%nat.
Proof. reflexivity. Qed.

Lemma resolve_lookup i : NES_PALETTE !! Z.to_nat (i mod 64) = Some (resolve i).
Proof.
  unfold resolve. pose proof (Z.mod_pos_bound i 64 ltac:(lia)) as Hm.
  destruct (lookup_lt_is_Some_2 NES_PALETTE (Z.to_nat (i mod 64))) as [c Hc].
  { rewrite NES_PALETTE_length. lia. }
  rewrite Hc. f_equal. symmetry. now apply nth_lookup_Some.
Qed.

Lemma get_palette_colors_map (palette_indices : list Z) :
  get_palette_colors palette_indices = Ok (map resolve palette_indices).
Proof.
  unfold get_palette_colors. apply collect_map. intros i _.
  rewrite land_0x3f. pose proof (Z.mod_pos_bound i 64 ltac:(lia)) as Hm.
  apply index_Ok; [lia|]. apply resolve_lookup.
Qed.

Remark default_palette_resolved :
  get_palette_colors [0x0f; 0x20; 0x28; 0x30] = Ok default_palette.
Proof. reflexivity. Qed.

(** C3. For every list of integers, [get_palette_colors] raises nothing
    and returns a list of the same length and order whose element [k] is
    the System Color Table entry at index [input[k] & 0x3f], which is
    [input[k] mod 64]; 64 resolves like 0 and 67 like 3. *)
Theorem get_palette_colors_spec (palette_indices : list Z) :
  (exists colors,
     get_palette_colors palette_indices = Ok colors /\
     length colors = length palette_indices /\
     forall k i, palette_indices !! k = Some i ->
       Z.land i 0x3f = i mod 64 /\ 0 <= i mod 64 < 64 /\
       exists c, NES_PALETTE !! Z.to_nat (i mod 64) = Some c /\
                 colors !! k = Some c) /\
  get_palette_colors [64] = get_palette_colors [0] /\
  get_palette_colors [67] = get_palette_colors [3].
Proof.
  split; [|split; reflexivity].
  exists (map resolve palette_indices).
  split; [apply get_palette_colors_map|].
  split; [apply length_map|].
  intros k i Hk. split; [apply land_0x3f|].
  split; [apply Z.mod_pos_bound; lia|].
  exists (resolve i). split; [apply resolve_lookup|].
  rewrite map_lookup, Hk. reflexivity.
Qed.

(** ** ROM reader *)

Lemma extract_chr_raises (rom_data : bytes) (address size : Z) :
  address + size > len rom_data ->
  extract_chr rom_data address size
  = Raise (ValueError_rom address size (len rom_data)).
Proof.
  intros H. unfold extract_chr.
  destruct (address + size >? len rom_data) eqn:E; [reflexivity|lia].
Qed.

Lemma extract_chr_returns (rom_data : bytes) (address size : Z) :
  address + size <= len rom_data ->
  extract_chr rom_data address size
  = Ok (slice rom_data address (address + size)).
Proof.
  intros H. unfold extract_chr.
  destruct (address + size >? len rom_data) eqn:E; [lia|reflexivity].
Qed.

(** C4, as stated: whenever [address + size] does not exceed the buffer
    length the result has length [size].  Not at address -1, size 1. *)
Lemma extract_chr_not_exact :
  -1 + 1 <= len rom_2 /\
  extract_chr rom_2 (-1) 1 = Ok [] /\
  len (@nil Byte.byte) <> 1.
Proof. split; [vm_compute; discriminate|]. split; [reflexivity|discriminate]. Qed.

(** C4, amended: for every buffer, address and size, [extract_chr] raises
    (an error carrying the address, the size and the ROM size) if and only
    if [address + size] exceeds the buffer length; otherwise it returns,
    and for [address >= 0] and [size >= 0] what it returns is exactly the
    bytes at positions [address .. address+size-1], [size] of them.  The
    buffer is an immutable value. *)
Theorem extract_chr_spec (rom_data : bytes) (address size : Z) :
  (extract_chr rom_data address size
     = Raise (ValueError_rom address size (len rom_data))
   <-> address + size > len rom_data) /\
  ((exists e, extract_chr rom_data address size = Raise e)
   <-> address + size > len rom_data) /\
  (address + size <= len rom_data ->
   exists chr_data,
     extract_chr rom_data address size = Ok chr_data /\
     (0 <= address -> 0 <= size ->
      len chr_data = size /\
      chr_data = take (Z.to_nat size) (drop (Z.to_nat address) rom_data) /\
      forall k, 0 <= k < size ->
        chr_data !! Z.to_nat k = rom_data !! Z.to_nat (address + k))).
Proof.
  split; [|split].
  - split; [|apply extract_chr_raises].
    intros E. destruct (Z_le_gt_dec (address + size) (len rom_data)) as [H|H];
      [|assumption].
    rewrite extract_chr_returns in E by assumption. discriminate.
  - split; [|intros H; eexists; now apply extract_chr_raises].
    intros [e E]. destruct (Z_le_gt_dec (address + size) (len rom_data)) as [H|H];
      [|assumption].
    rewrite extract_chr_returns in E by assumption. discriminate.
  - intros H. eexists. split; [now apply extract_chr_returns|].
    intros Ha Hs. split; [|split].
    + rewrite slice_inside_length by lia. lia.
    + rewrite slice_inside by lia. do 2 f_equal. lia.
    + intros k Hk. apply slice_inside_lookup; lia.
Qed.

Lemma extract_chr_spec_witness :
  exists chr_data, extract_chr rom_2 1 1 = Ok chr_data /\ chr_data = [x2b].
Proof.
  destruct (extract_chr_spec rom_2 1 1) as (_ & _ & H).
  destruct H as (chr_data & E & H); [vm_compute; discriminate|].
  exists chr_data. split; [exact E|].
  destruct H as (_ & -> & _); [lia|lia|reflexivity].
Defined.

(** C9. [extract_chr] does not reject a negative address: at address -1
    and size 1 the bounds check passes on every buffer (so on those of
    length at least 2), nothing is raised, and the result is the Python
    slice [rom_data[-1:0]], which is empty and so shorter than [size];
    for [address >= 0] and [size >= 0] inside the buffer the result does
    have length [size]. *)
Theorem extract_chr_negative_address (rom_data : bytes) :
  -1 < 0 /\ 0 < 1 /\ -1 + 1 <= len rom_data /\
  extract_chr rom_data (-1) 1 = Ok (slice rom_data (-1) 0) /\
  slice rom_data (-1) 0 = [] /\
  len (slice rom_data (-1) 0) < 1 /\
  (forall address size,
     0 <= address -> 0 <= size -> address + size <= len rom_data ->
     exists chr_data, extract_chr rom_data address size = Ok chr_data /\
                      len chr_data = size).
Proof.
  pose proof (len_nonneg rom_data) as Hlen.
  assert (Hempty : slice rom_data (-1) 0 = []).
  { unfold slice. replace (bound (len rom_data) 0) with 0
      by (unfold bound; simpl; lia).
    assert (0 <= bound (len rom_data) (-1)) by (unfold bound; lia).
    replace (Z.to_nat (0 - bound (len rom_data) (-1))) with 0%nat by lia.
    reflexivity. }
  split; [lia|]. split; [lia|]. split; [lia|].
  split; [apply extract_chr_returns; lia|].
  split; [assumption|]. split; [rewrite Hempty; reflexivity|].
  intros address size Ha Hs H. eexists.
  split; [now apply extract_chr_returns|].
  rewrite slice_inside_length by lia. lia.
Qed.

(** ** Images *)

Section PilFacts.

Lemma pixel_offset_bound w h x y :
  0 <= x < w -> 0 <= y < h -> 0 <= y * w + x < w * h.
Proof. intros Hx Hy. nia. Qed.


Lemma pixel_offset_col w x y : 0 <= x < w -> (y * w + x) mod w = x.
Proof.
  intros Hx. rewrite Z.add_comm, Z.mod_add by lia. apply Z.mod_small. lia.
Qed.

Lemma pixel_offset_row w x y : 0 <= x < w -> (y * w + x) / w = y.
Proof.
  intros Hx. rewrite Z.add_comm, Z.div_add by lia.
  rewrite Z.div_small by lia. lia.
Qed.

Lemma pixel_offset_inj w x y x' y' :
  0 <= x < w -> 0 <= x' < w ->
  y * w + x = y' * w + x' -> x = x' /\ y = y'.
Proof.
  intros Hx Hx' E. split.
  - rewrite <- (pixel_offset_col w x y), <- (pixel_offset_col w x' y')
      by assumption. now rewrite E.
  - rewrite <- (pixel_offset_row w x y), <- (pixel_offset_row w x' y')
      by assumption. now rewrite E.
Qed.

Lemma inside_true img x y :
  inside img x y = true <-> 0 <= x < width img /\ 0 <= y < height img.
Proof. unfold inside. rewrite !andb_true_iff. lia. Qed.

Lemma getpixel_inside img x y :
  0 <= x < width img -> 0 <= y < height img ->
  getpixel img x y = data img !! Z.to_nat (y * width img + x).
Proof.
  intros Hx Hy. unfold getpixel.
  destruct (inside img x y) eqn:E; [reflexivity|].
  assert (inside img x y = true) by now apply inside_true. congruence.
Qed.

Lemma getpixel_outside img x y :
  ~ (0 <= x < width img /\ 0 <= y < height img) -> getpixel img x y = None.
Proof.
  intros H. unfold getpixel. destruct (inside img x y) eqn:E; [|reflexivity].
  apply inside_true in E. contradiction.
Qed.

Lemma getpixel_is_Some img x y :
  wf_image img -> 0 <= x < width img -> 0 <= y < height img ->
  is_Some (getpixel img x y).
Proof.
  intros (_ & _ & Hlen) Hx Hy. rewrite getpixel_inside by assumption.
  apply lookup_lt_is_Some. rewrite Hlen.
  pose proof (pixel_offset_bound _ _ _ _ Hx Hy). lia.
Qed.

(** Two well-formed images of one size with the same pixels are equal. *)
Lemma image_ext img1 img2 :
  wf_image img1 -> wf_image img2 ->
  width img1 = width img2 -> height img1 = height img2 ->
  (forall x y, 0 <= x < width img1 -> 0 <= y < height img1 ->
               getpixel img1 x y = getpixel img2 x y) ->
  img1 = img2.
Proof.
  destruct img1 as [w1 h1 d1], img2 as [w2 h2 d2]. simpl.
  intros (Hw1 & Hh1 & L1) (Hw2 & Hh2 & L2) <- <- Hpix. simpl in *.
  f_equal. apply list_eq. intros k.
  destruct (Nat.lt_ge_cases k (Z.to_nat (w1 * h1))) as [Hk|Hk].
  - assert (Hw : 0 < w1) by nia.
    pose proof (Z.mod_pos_bound (Z.of_nat k) w1 Hw) as Hm.
    pose proof (Z.div_mod (Z.of_nat k) w1 ltac:(lia)) as Hdm.
    assert (Hq : 0 <= Z.of_nat k / w1 < h1).
    { split; [apply Z.div_pos; lia|]. apply Z.div_lt_upper_bound; nia. }
    specialize (Hpix (Z.of_nat k mod w1) (Z.of_nat k / w1) Hm Hq).
    rewrite !getpixel_inside in Hpix by (simpl; assumption). simpl in Hpix.
    replace (Z.to_nat (Z.of_nat k / w1 * w1 + Z.of_nat k mod w1)) with k
      in Hpix by lia.
    exact Hpix.
  - rewrite !lookup_ge_None_2 by lia. reflexivity.
Qed.

Lemma new_spec w h :
  0 <= w -> 0 <= h ->
  exists img, new w h = Ok img /\ width img = w /\ height img = h /\
              wf_image img /\
              forall x y, 0 <= x < w -> 0 <= y < h ->
                          getpixel img x y = Some black.
Proof.
  intros Hw Hh. unfold new.
  replace ((w <? 0) || (h <? 0)) with false
    by (symmetry; apply orb_false_iff; lia).
  eexists. split; [reflexivity|]. simpl. split; [reflexivity|].
  split; [reflexivity|]. split.
  - unfold wf_image. simpl. rewrite length_replicate. lia.
  - intros x y Hx Hy. rewrite getpixel_inside by (simpl; assumption). simpl.
    apply lookup_replicate_2.
    pose proof (pixel_offset_bound _ _ _ _ Hx Hy). lia.
Qed.

Lemma new_negative w h : w < 0 \/ h < 0 -> new w h = Raise ValueError_image_size.
Proof.
  intros H. unfold new.
  replace ((w <? 0) || (h <? 0)) with true; [reflexivity|].
  symmetry. apply orb_true_iff. lia.
Qed.

Lemma putpixel_spec img x y c :
  wf_image img -> 0 <= x < width img -> 0 <= y < height img ->
  exists img', putpixel img x y c = Ok img' /\
               width img' = width img /\ height img' = height img /\
               wf_image img' /\
               getpixel img' x y = Some (ink c) /\
               forall x' y', (x', y') <> (x, y) ->
                             getpixel img' x' y' = getpixel img x' y'.
Proof.
  intros (Hw & Hh & Hlen) Hx Hy. unfold putpixel.
  destruct (x <? 0) eqn:Ex; [lia|]. destruct (y <? 0) eqn:Ey; [lia|].
  assert (Hin : inside img x y = true) by now apply inside_true.
  rewrite Hin. eexists. split; [reflexivity|]. simpl.
  pose proof (pixel_offset_bound _ _ _ _ Hx Hy) as Hb.
  split; [reflexivity|]. split; [reflexivity|]. split; [|split].
  - unfold wf_image. simpl. rewrite length_insert. auto.
  - rewrite getpixel_inside by (simpl; assumption). simpl.
    apply list_lookup_insert_eq. lia.
  - intros x' y' Hne. unfold getpixel at 1 2.
    replace (inside {| width := width img; height := height img;
                       data := _ |} x' y') with (inside img x' y')
      by reflexivity.
    destruct (inside img x' y') eqn:Hin'; [|reflexivity]. simpl.
    apply inside_true in Hin'. apply list_lookup_insert_ne.
    intros E. apply Hne.
    assert (y * width img + x = y' * width img + x') as E'.
    { pose proof (pixel_offset_bound (width img) (height img) x' y'
                    ltac:(lia) ltac:(lia)). lia. }
    apply pixel_offset_inj in E'; [|lia|lia]. f_equal; lia.
Qed.

Lemma paste_size dst src x y :
  width (paste dst src x y) = width dst /\
  height (paste dst src x y) = height dst.
Proof. split; reflexivity. Qed.

Lemma paste_wf dst src x y : wf_image dst -> wf_image (paste dst src x y).
Proof.
  intros (Hw & Hh & Hlen). unfold wf_image, paste. simpl.
  rewrite length_imap. auto.
Qed.

Lemma paste_getpixel dst src x y px py :
  0 <= px < width dst -> 0 <= py < height dst ->
  getpixel (paste dst src x y) px py
  = match getpixel src (px - x) (py - y) with
    | Some c => option_map (fun _ => c) (getpixel dst px py)
    | None => getpixel dst px py
    end.
Proof.
  intros Hx Hy.
  rewrite (getpixel_inside (paste dst src x y)) by (simpl; assumption).
  rewrite (getpixel_inside dst) by assumption.
  unfold paste. simpl. rewrite list_lookup_imap.
  destruct (data dst !! Z.to_nat (py * width dst + px)) as [old|] eqn:E;
    simpl; [|now destruct (getpixel src (px - x) (py - y))].
  rewrite Z2Nat.id by nia.
  rewrite pixel_offset_col, pixel_offset_row by assumption.
  now destruct (getpixel src (px - x) (py - y)).
Qed.

End PilFacts.

(** ** Tile rasterizer *)

Lemma block_div s x dx : 0 <= dx < s -> (x * s + dx) / s = x.
Proof. intros H. symmetry. apply (Z.div_unique _ _ _ dx); lia. Qed.

Lemma block_mod s x dx : 0 <= dx < s -> (x * s + dx) mod s = dx.
Proof. intros H. symmetry. apply (Z.mod_unique _ _ x dx); lia. Qed.

Lemma block_bound n s x dx : 0 <= x < n -> 0 <= dx < s -> 0 <= x * s + dx < n * s.
Proof. intros Hx Hdx. nia. Qed.

Lemma index_grid_cell tile_pixels x y :
  index_grid tile_pixels -> 0 <= x < 8 -> 0 <= y < 8 ->
  exists row v, tile_pixels !! Z.to_nat y = Some row /\
                row !! Z.to_nat x = Some v /\ 0 <= v <= 3.
Proof.
  intros [Hrows Hcells] Hx Hy.
  destruct (lookup_lt_is_Some_2 tile_pixels (Z.to_nat y)) as [row Hrow]; [lia|].
  rewrite Forall_forall in Hcells.
  destruct (Hcells row) as [Hlen Hvals].
  { apply list_elem_of_In, list_elem_of_lookup. eauto. }
  destruct (lookup_lt_is_Some_2 row (Z.to_nat x)) as [v Hv]; [lia|].
  exists row, v. split; [assumption|]. split; [assumption|].
  rewrite Forall_forall in Hvals. apply Hvals.
  apply list_elem_of_In, list_elem_of_lookup. eauto.
Qed.

Section TileRaster.
Variables (tile_pixels : list (list Z)) (palette : list color) (scale : Z).
Hypothesis Hgrid : index_grid tile_pixels.
Hypothesis Hpalette : length palette = 4%nat.
Hypothesis Hscale : 1 <= scale.

Local Abbreviation target := (raster_target tile_pixels palette scale).
Local Abbreviation painted := (raster_painted tile_pixels palette scale).

Lemma painted_weaken (D D' : Z -> Z -> Prop) img :
  painted D img -> (forall px py, D' px py -> D px py) -> painted D' img.
Proof. intros [Hsz Hpix] Hsub. split; auto. Qed.

(** One loop level: if iteration [k] paints the region [R k] on top of
    whatever was painted, the loop paints all the [R k]. *)
Lemma paint_loop (n : Z) (body : Z -> Image -> result Image)
    (R : Z -> Z -> Z -> Prop) :
  (forall k D img, 0 <= k < n -> painted D img ->
     exists img', body k img = Ok img' /\
                  painted (fun px py => D px py \/ R k px py) img') ->
  forall D img, painted D img ->
    exists img', for_each (range n) body img = Ok img' /\
      painted (fun px py => D px py \/ exists k, 0 <= k < n /\ R k px py) img'.
Proof.
  intros Hstep D img Hinit.
  destruct (for_range_invariant
              (fun k img => painted (fun px py =>
                 D px py \/ exists j, 0 <= j < k /\ R j px py) img)
              n body img) as (img' & E & HI).
  - eapply painted_weaken; [exact Hinit|].
    intros px py [H|(j & Hj & _)]; [assumption|lia].
  - intros k img1 Hk HI.
    destruct (Hstep k _ img1 Hk HI) as (img2 & E2 & H2).
    exists img2. split; [assumption|].
    eapply painted_weaken; [exact H2|].
    intros px py [H|(j & Hj & HR)]; [now left; left|].
    destruct (Z.eq_dec j k) as [->|Hne]; [now right|].
    left; right. exists j. split; [lia|assumption].
  - exists img'. split; [assumption|].
    eapply painted_weaken; [exact HI|].
    intros px py [H|(j & Hj & HR)]; [now left|].
    right. exists j. split; [lia|assumption].
Qed.

Lemma paint_pixel x y dx dy D img :
  0 <= x < 8 -> 0 <= y < 8 -> 0 <= dx < scale -> 0 <= dy < scale ->
  painted D img ->
  exists img',
    putpixel img (x * scale + dx) (y * scale + dy)
             (tile_color tile_pixels palette x y) = Ok img' /\
    painted (fun px py => D px py \/
               (px = x * scale + dx /\ py = y * scale + dy)) img'.
Proof.
  intros Hx Hy Hdx Hdy [(Hwf & Hw & Hh) Hpix].
  pose proof (block_bound 8 scale x dx Hx Hdx) as Bx.
  pose proof (block_bound 8 scale y dy Hy Hdy) as By.
  destruct (putpixel_spec img (x * scale + dx) (y * scale + dy)
              (tile_color tile_pixels palette x y))
    as (img' & E & Hw' & Hh' & Hwf' & Hset & Hother);
    [assumption|lia|lia|].
  exists img'. split; [assumption|]. split.
  { split; [assumption|]. split; congruence. }
  intros px py HD.
  destruct (decide ((px, py) = (x * scale + dx, y * scale + dy))) as [Heq|Hne].
  - injection Heq as -> ->. rewrite Hset. unfold raster_target.
    now rewrite !block_div by assumption.
  - rewrite Hother by assumption. destruct HD as [HD|[-> ->]]; [auto|].
    now contradiction Hne.
Qed.

Lemma paint_cell x y D img :
  0 <= x < 8 -> 0 <= y < 8 -> painted D img ->
  exists img',
    (let* row := index tile_pixels y in
     let* v := index row x in
     let* color := index palette v in
     for_each (range scale) (fun dy =>
       for_each (range scale) (fun dx pixels =>
         putpixel pixels (x * scale + dx) (y * scale + dy) color))
       img) = Ok img' /\
    painted (fun px py => D px py \/
               exists dy, 0 <= dy < scale /\
               exists dx, 0 <= dx < scale /\
                 (px = x * scale + dx /\ py = y * scale + dy)) img'.
Proof.
  intros Hx Hy HD.
  destruct (index_grid_cell tile_pixels x y Hgrid Hx Hy)
    as (row & v & Hrow & Hv & Hrange).
  destruct (lookup_lt_is_Some_2 palette (Z.to_nat v)) as [c Hc]; [lia|].
  rewrite (index_Ok _ y row) by (lia || assumption). simpl.
  rewrite (index_Ok _ x v) by (lia || assumption). simpl.
  rewrite (index_Ok _ v c) by (lia || assumption). simpl.
  assert (Hcolor : c = tile_color tile_pixels palette x y).
  { unfold tile_color, cell. rewrite Hrow, Hv. symmetry.
    now apply nth_lookup_Some. }
  rewrite Hcolor.
  apply (paint_loop scale _
           (fun dy px py => exists dx, 0 <= dx < scale /\
              (px = x * scale + dx /\ py = y * scale + dy))); [|assumption].
  intros dy D1 img1 Hdy H1.
  apply (paint_loop scale _
           (fun dx px py => px = x * scale + dx /\ py = y * scale + dy));
    [|assumption].
  intros dx D2 img2 Hdx H2. now apply paint_pixel.
Qed.

Lemma create_tile_image_pixels :
  exists img,
    create_tile_image tile_pixels palette scale = Ok img /\
    wf_image img /\ width img = 8 * scale /\ height img = 8 * scale /\
    forall px py, 0 <= px < 8 * scale -> 0 <= py < 8 * scale ->
      getpixel img px py
      = Some (ink (tile_color tile_pixels palette (px / scale) (py / scale))).
Proof.
  unfold create_tile_image.
  destruct (new_spec (8 * scale) (8 * scale))
    as (img0 & E0 & Hw0 & Hh0 & Hwf0 & _); [lia|lia|].
  rewrite E0. simpl.
  assert (H0 : painted (fun _ _ => False) img0).
  { split; [auto|]. intros ? ? []. }
  destruct (paint_loop 8
              (fun y => for_each (range 8) (fun x pixels =>
                 let* row := index tile_pixels y in
                 let* v := index row x in
                 let* color := index palette v in
                 for_each (range scale) (fun dy =>
                   for_each (range scale) (fun dx pixels =>
                     putpixel pixels (x * scale + dx) (y * scale + dy) color))
                   pixels))
              (fun y px py => exists x, 0 <= x < 8 /\
                 exists dy, 0 <= dy < scale /\
                 exists dx, 0 <= dx < scale /\
                   (px = x * scale + dx /\ py = y * scale + dy)))
    with (D := fun (_ _ : Z) => False) (img := img0)
    as (img & E & [(Hwf & Hw & Hh) Hpix]); [|assumption|].
  { intros y D1 img1 Hy H1.
    apply (paint_loop 8 _
             (fun x px py => exists dy, 0 <= dy < scale /\
                exists dx, 0 <= dx < scale /\
                  (px = x * scale + dx /\ py = y * scale + dy)));
      [|assumption].
    intros x D2 img2 Hx H2. now apply paint_cell. }
  exists img. split; [exact E|]. do 3 (split; [assumption|]).
  intros px py Hpx Hpy. apply Hpix. right.
  pose proof (Z.div_mod px scale ltac:(lia)) as Dx.
  pose proof (Z.div_mod py scale ltac:(lia)) as Dy.
  pose proof (Z.mod_pos_bound px scale ltac:(lia)) as Mx.
  pose proof (Z.mod_pos_bound py scale ltac:(lia)) as My.
  exists (py / scale). split.
  { split; [apply Z.div_pos; lia|apply Z.div_lt_upper_bound; lia]. }
  exists (px / scale). split.
  { split; [apply Z.div_pos; lia|apply Z.div_lt_upper_bound; lia]. }
  exists (py mod scale). split; [assumption|].
  exists (px mod scale). split; [assumption|]. lia.
Qed.

End TileRaster.

Lemma downsample_wf k ox oy img :
  1 <= k -> 0 <= width img -> 0 <= height img ->
  wf_image (downsample k ox oy img).
Proof.
  intros Hk Hw Hh. unfold wf_image, downsample. simpl.
  split; [apply Z.div_pos; lia|]. split; [apply Z.div_pos; lia|].
  pose proof (range_length (width img / k * (height img / k))) as L.
  unfold len in L. rewrite length_map.
  assert (0 <= width img / k) by (apply Z.div_pos; lia).
  assert (0 <= height img / k) by (apply Z.div_pos; lia).
  nia.
Qed.

Lemma downsample_getpixel k ox oy img x y :
  0 <= x < width img / k -> 0 <= y < height img / k ->
  getpixel (downsample k ox oy img) x y
  = Some (match getpixel img (x * k + ox) (y * k + oy) with
          | Some c => c
          | None => black
          end).
Proof.
  intros Hx Hy. rewrite getpixel_inside by (simpl; assumption).
  unfold downsample. simpl.
  pose proof (pixel_offset_bound _ _ _ _ Hx Hy) as Hb.
  rewrite map_lookup, range_lookup by assumption. simpl.
  now rewrite pixel_offset_col, pixel_offset_row by assumption.
Qed.

Lemma ink_rgb (c : color) : is_rgb c -> ink c = c.
Proof.
  destruct c as [[r g] b]. unfold is_rgb, ink, clip8. intros (Hr & Hg & Hb).
  repeat f_equal; lia.
Qed.

Lemma palette_lookup_rgb (palette : list color) (k : nat) (c : color) :
  Forall is_rgb palette -> palette !! k = Some c -> is_rgb c.
Proof.
  intros Hrgb Hc. rewrite Forall_forall in Hrgb. apply Hrgb.
  apply list_elem_of_In, list_elem_of_lookup. eauto.
Qed.

(** C8. For every 8x8 colour-index grid, palette of 4 RGB colours (each
    channel in 0..255) and scale >= 1, [create_tile_image] returns an
    [(8*scale) x (8*scale)] raster whose pixel at
    [(x*scale + dx, y*scale + dy)] is [palette[grid[y][x]]] for all
    [0 <= dx, dy < scale]; so every block is one solid colour, and
    reducing the output by the factor [scale] (in particular 3), whichever
    pixel of each block is sampled, gives exactly the scale-1 output. *)
Theorem create_tile_image_spec (tile_pixels : list (list Z))
    (palette : list color) (scale : Z) :
  index_grid tile_pixels -> length palette = 4%nat ->
  Forall is_rgb palette -> 1 <= scale ->
  exists img img1,
    create_tile_image tile_pixels palette scale = Ok img /\
    create_tile_image tile_pixels palette 1 = Ok img1 /\
    width img = 8 * scale /\ height img = 8 * scale /\
    (forall x y dx dy,
       0 <= x < 8 -> 0 <= y < 8 -> 0 <= dx < scale -> 0 <= dy < scale ->
       exists v c,
         cell tile_pixels x y = Some v /\
         palette !! Z.to_nat v = Some c /\
         getpixel img (x * scale + dx) (y * scale + dy) = Some c) /\
    (forall ox oy, 0 <= ox < scale -> 0 <= oy < scale ->
       downsample scale ox oy img = img1).
Proof.
  intros Hgrid Hpal Hrgb Hscale.
  destruct (create_tile_image_pixels tile_pixels palette scale Hgrid Hpal Hscale)
    as (img & E & Hwf & Hw & Hh & Hpix).
  destruct (create_tile_image_pixels tile_pixels palette 1 Hgrid Hpal ltac:(lia))
    as (img1 & E1 & Hwf1 & Hw1 & Hh1 & Hpix1).
  exists img, img1. do 4 (split; [assumption|]). split.
  - intros x y dx dy Hx Hy Hdx Hdy.
    destruct (index_grid_cell tile_pixels x y Hgrid Hx Hy)
      as (row & v & Hrow & Hv & Hrange).
    destruct (lookup_lt_is_Some_2 palette (Z.to_nat v)) as [c Hc]; [lia|].
    exists v, c. split; [unfold cell; now rewrite Hrow|].
    split; [assumption|].
    rewrite Hpix by (apply block_bound; assumption).
    rewrite !block_div by assumption.
    unfold tile_color, cell. rewrite Hrow, Hv. f_equal.
    rewrite (nth_lookup_Some _ _ black _ Hc).
    apply ink_rgb. now apply (palette_lookup_rgb palette (Z.to_nat v)).
  - intros ox oy Hox Hoy.
    assert (Hdw : width img / scale = 8)
      by (rewrite Hw; apply Z.div_mul; lia).
    assert (Hdh : height img / scale = 8)
      by (rewrite Hh; apply Z.div_mul; lia).
    apply image_ext.
    + apply downsample_wf; lia.
    + assumption.
    + simpl. lia.
    + simpl. lia.
    + intros x y Hx Hy. simpl in Hx, Hy. rewrite Hdw in Hx. rewrite Hdh in Hy.
      rewrite downsample_getpixel by lia.
      rewrite Hpix by (apply block_bound; assumption).
      rewrite Hpix1 by lia.
      now rewrite !block_div, !Z.div_1_r by assumption.
Qed.

Lemma grid_0x80_index_grid : index_grid grid_0x80.
Proof.
  split; [reflexivity|].
  forall_list ltac:(split; [reflexivity|forall_list lia]).
Qed.

Lemma create_tile_image_spec_witness :
  exists img img1,
    create_tile_image grid_0x80 default_palette 3 = Ok img /\
    create_tile_image grid_0x80 default_palette 1 = Ok img1 /\
    downsample 3 1 1 img = img1.
Proof.
  destruct (create_tile_image_spec grid_0x80 default_palette 3)
    as (img & img1 & E & E1 & _ & _ & _ & H).
  - exact grid_0x80_index_grid.
  - reflexivity.
  - unfold default_palette. forall_list ltac:(unfold is_rgb; lia).
  - lia.
  - exists img, img1. split; [exact E|]. split; [exact E1|]. apply H; lia.
Defined.

(** ** Sheet compositor *)

Lemma num_tiles_inside (chr_data : bytes) i :
  0 <= i < len chr_data / 16 -> (i + 1) * 16 <= len chr_data.
Proof.
  intros Hi. pose proof (Z.mul_div_le (len chr_data) 16 ltac:(lia)). lia.
Qed.

Lemma rows_ceil n t :
  1 <= t -> (((n + t - 1) / t) - 1) * t < n <= (n + t - 1) / t * t.
Proof.
  intros Ht.
  pose proof (Z.div_mod (n + t - 1) t ltac:(lia)) as Hdm.
  pose proof (Z.mod_pos_bound (n + t - 1) t ltac:(lia)) as Hm.
  nia.
Qed.

Lemma tile_row_bound n t i : 1 <= t -> 0 <= i < n -> 0 <= i / t < (n + t - 1) / t.
Proof.
  intros Ht Hi. pose proof (rows_ceil n t Ht) as Hr.
  split; [apply Z.div_pos; lia|]. apply Z.div_lt_upper_bound; nia.
Qed.

(** A pixel lies in the box of tile [k] exactly when its grid cell has
    linear index [k]. *)
Lemma tile_box_iff T t k px py :
  0 < T -> 1 <= t -> 0 <= px < t * T ->
  (0 <= px - k mod t * T < T /\ 0 <= py - k / t * T < T)
  <-> py / T * t + px / T = k.
Proof.
  intros HT Ht Hpx. split.
  - intros [Hx Hy].
    assert (Ex : px / T = k mod t).
    { symmetry. apply (Z.div_unique _ _ _ (px - k mod t * T)); lia. }
    assert (Ey : py / T = k / t).
    { symmetry. apply (Z.div_unique _ _ _ (py - k / t * T)); lia. }
    rewrite Ex, Ey. pose proof (Z.div_mod k t ltac:(lia)). lia.
  - intros E.
    assert (Ha : 0 <= px / T < t).
    { split; [apply Z.div_pos; lia|apply Z.div_lt_upper_bound; lia]. }
    assert (Ey : py / T = k / t).
    { apply (Z.div_unique _ _ _ (px / T)); lia. }
    assert (Ex : px / T = k mod t).
    { apply (Z.mod_unique _ _ (py / T)); lia. }
    rewrite <- Ex, <- Ey.
    pose proof (Z.div_mod px T ltac:(lia)).
    pose proof (Z.div_mod py T ltac:(lia)).
    pose proof (Z.mod_pos_bound px T HT).
    pose proof (Z.mod_pos_bound py T HT).
    lia.
Qed.

Lemma tile_box_offset T t k px py :
  0 < T -> py / T * t + px / T = k -> 1 <= t -> 0 <= px < t * T ->
  px - k mod t * T = px mod T /\ py - k / t * T = py mod T.
Proof.
  intros HT E Ht Hpx.
  assert (Ha : 0 <= px / T < t).
  { split; [apply Z.div_pos; lia|apply Z.div_lt_upper_bound; lia]. }
  assert (Ey : py / T = k / t).
  { apply (Z.div_unique _ _ _ (px / T)); lia. }
  assert (Ex : px / T = k mod t).
  { apply (Z.mod_unique _ _ (py / T)); lia. }
  rewrite <- Ex, <- Ey.
  pose proof (Z.div_mod px T ltac:(lia)).
  pose proof (Z.div_mod py T ltac:(lia)).
  lia.
Qed.

Section Sheet.
Variables (chr_data : bytes) (palette : list color) (tiles_per_row scale : Z).
Hypothesis Hpalette : length palette = 4%nat.
Hypothesis Htiles_per_row : 1 <= tiles_per_row.
Hypothesis Hscale : 1 <= scale.

Local Abbreviation num_tiles := (len chr_data / 16).
Local Abbreviation rows := (sheet_rows chr_data tiles_per_row).
Local Abbreviation composed :=
  (sheet_composed chr_data palette tiles_per_row scale).

Lemma num_tiles_nonneg : 0 <= num_tiles.
Proof. apply Z.div_pos; [apply len_nonneg|lia]. Qed.

Lemma rows_nonneg : 0 <= rows.
Proof.
  pose proof num_tiles_nonneg. apply Z.div_pos; lia.
Qed.

Lemma paste_tile k st :
  0 <= k < num_tiles -> composed k st ->
  exists st',
    (let* tile_pixels := decode_tile chr_data k in
     let* tile_img := create_tile_image tile_pixels palette scale in
     let* row := floordiv k tiles_per_row in
     let* col := modulo k tiles_per_row in
     let x := col * (8 * scale) in
     let y := row * (8 * scale) in
     Ok (mkSheetState (paste (sheet st) tile_img x y)
                      (pasted st ++ [(k, x, y)]))) = Ok st' /\
    composed (k + 1) st'.
Proof.
  intros Hk (Hwf & Hw & Hh & Hlog & Hpix).
  rewrite decode_tile_inside by (try apply num_tiles_inside; lia). simpl.
  destruct (create_tile_image_pixels (tile_grid chr_data k) palette scale
              (tile_grid_index_grid chr_data k) Hpalette Hscale)
    as (tile_img & E & Twf & Tw & Th & Tpix).
  rewrite E. simpl. unfold floordiv, modulo.
  destruct (tiles_per_row =? 0) eqn:E0; [lia|]. simpl.
  eexists. split; [reflexivity|]. unfold sheet_composed. simpl.
  split; [now apply paste_wf|]. split; [assumption|]. split; [assumption|].
  split.
  { rewrite range_succ, map_app, Hlog by lia. reflexivity. }
  intros px py Hpx Hpy.
  rewrite paste_getpixel by lia. rewrite Hpix by assumption.
  unfold sheet_pixel. cbv zeta.
  set (i := py / (8 * scale) * tiles_per_row + px / (8 * scale)).
  pose proof (tile_box_iff (8 * scale) tiles_per_row k px py
                ltac:(lia) Htiles_per_row Hpx) as Hbox.
  fold i in Hbox.
  destruct (Z.eq_dec i k) as [Ei|Ei].
  - destruct (tile_box_offset (8 * scale) tiles_per_row k px py
                ltac:(lia) Ei Htiles_per_row Hpx) as [Ox Oy].
    apply Hbox in Ei as Hin. rewrite Tpix by lia. simpl.
    rewrite Ox, Oy, Ei.
    replace (k <? k + 1) with true by (symmetry; apply Z.ltb_lt; lia).
    reflexivity.
  - rewrite getpixel_outside by (rewrite Tw, Th; tauto).
    replace (i <? k + 1) with (i <? k); [reflexivity|].
    destruct (i <? k) eqn:E1, (i <? k + 1) eqn:E2; try reflexivity; lia.
Qed.

Lemma create_sprite_sheet_traced_composed :
  exists st,
    create_sprite_sheet_traced chr_data palette tiles_per_row scale = Ok st /\
    composed num_tiles st.
Proof.
  unfold create_sprite_sheet_traced. cbv zeta.
  assert (Hrows : floordiv (num_tiles + tiles_per_row - 1) tiles_per_row
                  = Ok rows).
  { unfold floordiv. destruct (tiles_per_row =? 0) eqn:E0; [lia|reflexivity]. }
  rewrite Hrows. cbn [bind].
  pose proof num_tiles_nonneg as Hn. pose proof rows_nonneg as Hr.
  destruct (new_spec (tiles_per_row * (8 * scale)) (rows * (8 * scale)))
    as (sheet0 & E & Hw & Hh & Hwf & Hblack); [nia|nia|].
  rewrite E. cbn [bind].
  destruct (for_range_invariant composed num_tiles
              (fun tile_idx st =>
                 let* tile_pixels := decode_tile chr_data tile_idx in
                 let* tile_img := create_tile_image tile_pixels palette scale in
                 let* row := floordiv tile_idx tiles_per_row in
                 let* col := modulo tile_idx tiles_per_row in
                 Ok (mkSheetState
                       (paste (sheet st) tile_img
                              (col * (8 * scale)) (row * (8 * scale)))
                       (pasted st ++
                          [(tile_idx, col * (8 * scale), row * (8 * scale))])))
              (mkSheetState sheet0 [])) as (st & Est & Hst).
  - unfold sheet_composed. simpl. do 4 (split; [auto|]).
    intros px py Hpx Hpy. rewrite Hblack by assumption.
    unfold sheet_pixel. cbv zeta.
    assert (0 <= py / (8 * scale) /\ 0 <= px / (8 * scale))
      by (split; apply Z.div_pos; lia).
    destruct (_ <? 0) eqn:E1; [nia|reflexivity].
  - intros k st Hk Hst. now apply paste_tile.
  - exists st. split; [exact Est|].
    now replace (Z.max 0 num_tiles) with num_tiles in Hst by lia.
Qed.

End Sheet.

Lemma tile_grid_take (chr_data : bytes) (k i : Z) :
  0 <= i -> (i + 1) * 16 <= k ->
  tile_grid (take (Z.to_nat k) chr_data) i = tile_grid chr_data i.
Proof.
  intros Hi Hk. unfold tile_grid. apply map_ext_in. intros y Hy.
  apply range_elem in Hy. unfold byte_at.
  rewrite !lookup_take_lt by lia. reflexivity.
Qed.

Lemma complete_tiles_length (chr_data : bytes) :
  len (take (Z.to_nat (16 * (len chr_data / 16))) chr_data)
  = 16 * (len chr_data / 16).
Proof.
  pose proof (Z.mul_div_le (len chr_data) 16 ltac:(lia)) as H.
  pose proof (len_nonneg chr_data) as Hn.
  assert (0 <= len chr_data / 16) by (apply Z.div_pos; lia).
  unfold len in *. rewrite length_take. lia.
Qed.

(** The sheet is built from the complete tiles only: the bytes after the
    last complete tile do not reach it. *)
Lemma create_sprite_sheet_traced_take (chr_data : bytes) (palette : list color)
    (tiles_per_row scale : Z) :
  create_sprite_sheet_traced
    (take (Z.to_nat (16 * (len chr_data / 16))) chr_data)
    palette tiles_per_row scale
  = create_sprite_sheet_traced chr_data palette tiles_per_row scale.
Proof.
  unfold create_sprite_sheet_traced. cbv zeta.
  rewrite complete_tiles_length.
  replace (16 * (len chr_data / 16) / 16) with (len chr_data / 16)
    by (rewrite Z.mul_comm, Z.div_mul; lia).
  destruct (floordiv _ tiles_per_row) as [rows|]; [|reflexivity]. cbn [bind].
  destruct (new _ _) as [sheet0|]; [|reflexivity]. cbn [bind].
  apply for_each_ext. intros i st Hi. apply range_elem in Hi.
  pose proof (num_tiles_inside chr_data i Hi) as Hin.
  rewrite !decode_tile_inside;
    [|lia|assumption|lia|rewrite complete_tiles_length; lia].
  rewrite tile_grid_take by lia. reflexivity.
Qed.

Lemma main_truncates (chr_data : bytes) :
  len chr_data mod 16 <> 0 ->
  slice chr_data 0 (len chr_data - len chr_data mod 16)
  = take (Z.to_nat (16 * (len chr_data / 16))) chr_data.
Proof.
  intros _. pose proof (Z.div_mod (len chr_data) 16 ltac:(lia)) as Hdm.
  pose proof (Z.mod_pos_bound (len chr_data) 16 ltac:(lia)) as Hm.
  pose proof (len_nonneg chr_data) as Hn.
  rewrite slice_prefix by lia. do 2 f_equal. lia.
Qed.

Lemma save_nonempty img : 0 < width img -> 0 < height img -> save img = Ok tt.
Proof.
  intros Hw Hh. unfold save.
  replace ((width img =? 0) || (height img =? 0)) with false; [reflexivity|].
  symmetry. apply orb_false_iff. lia.
Qed.

Lemma save_empty img :
  width img = 0 \/ height img = 0 -> save img = Raise ValueError_save_empty.
Proof.
  intros H. unfold save.
  replace ((width img =? 0) || (height img =? 0)) with true; [reflexivity|].
  symmetry. apply orb_true_iff. lia.
Qed.

(** [main] up to the point where the sheet is saved. *)
Lemma main_builds (chr_data : bytes) (palette_arg : list Z)
    (palette : list color) (tiles_per_row scale : Z) (st : sheet_state) :
  get_palette_colors palette_arg = Ok palette ->
  create_sprite_sheet_traced chr_data palette tiles_per_row scale = Ok st ->
  main (Some chr_data) palette_arg tiles_per_row scale
  = let out := (if len chr_data mod 16 =? 0 then []
                else [Stderr_warning_length (len chr_data)])
               ++ [Stdout_converting (len chr_data / 16)] in
    match save (sheet st) with
    | Raise e => (out, Exit_uncaught e)
    | Ok _ =>
        (out ++ [File_saved (sheet st); Stdout_saved;
                 Stdout_dimensions (width (sheet st)) (height (sheet st))],
         Exit_ok)
    end.
Proof.
  intros Hpal Hst. unfold main. rewrite Hpal.
  destruct (len chr_data mod 16 =? 0) eqn:E; cbn [negb].
  - unfold create_sprite_sheet. rewrite Hst. reflexivity.
  - rewrite main_truncates by lia.
    unfold create_sprite_sheet.
    rewrite create_sprite_sheet_traced_take, Hst. cbn [bind].
    rewrite complete_tiles_length.
    replace (16 * (len chr_data / 16) / 16) with (len chr_data / 16)
      by (rewrite Z.mul_comm, Z.div_mul; lia).
    reflexivity.
Qed.

Lemma main_converts (chr_data : bytes) (palette_arg : list Z)
    (palette : list color) (tiles_per_row scale : Z) (st : sheet_state) :
  get_palette_colors palette_arg = Ok palette ->
  create_sprite_sheet_traced chr_data palette tiles_per_row scale = Ok st ->
  0 < width (sheet st) -> 0 < height (sheet st) ->
  main (Some chr_data) palette_arg tiles_per_row scale
  = ((if len chr_data mod 16 =? 0 then []
      else [Stderr_warning_length (len chr_data)])
     ++ [Stdout_converting (len chr_data / 16); File_saved (sheet st);
         Stdout_saved;
         Stdout_dimensions (width (sheet st)) (height (sheet st))],
     Exit_ok).
Proof.
  intros Hpal Hst Hw Hh.
  rewrite (main_builds _ _ _ _ _ _ Hpal Hst). cbv zeta.
  rewrite save_nonempty by assumption. now rewrite <- app_assoc.
Qed.

Lemma main_empty_sheet (chr_data : bytes) (palette_arg : list Z)
    (palette : list color) (tiles_per_row scale : Z) (st : sheet_state) :
  get_palette_colors palette_arg = Ok palette ->
  create_sprite_sheet_traced chr_data palette tiles_per_row scale = Ok st ->
  width (sheet st) = 0 \/ height (sheet st) = 0 ->
  main (Some chr_data) palette_arg tiles_per_row scale
  = ((if len chr_data mod 16 =? 0 then []
      else [Stderr_warning_length (len chr_data)])
     ++ [Stdout_converting (len chr_data / 16)],
     Exit_uncaught ValueError_save_empty).
Proof.
  intros Hpal Hst Hempty.
  rewrite (main_builds _ _ _ _ _ _ Hpal Hst). cbv zeta.
  now rewrite save_empty by assumption.
Qed.

(** In the finished sheet the box of tile [i] shows the raster of tile
    [i], and the cells after the last tile are black. *)
Lemma sheet_composed_tile (chr_data : bytes) (palette : list color)
    (tiles_per_row scale i : Z) (st : sheet_state) :
  length palette = 4%nat -> 1 <= tiles_per_row -> 1 <= scale ->
  sheet_composed chr_data palette tiles_per_row scale (len chr_data / 16) st ->
  0 <= i < len chr_data / 16 ->
  exists tile_img,
    decode_tile chr_data i = Ok (tile_grid chr_data i) /\
    create_tile_image (tile_grid chr_data i) palette scale = Ok tile_img /\
    forall dx dy, 0 <= dx < 8 * scale -> 0 <= dy < 8 * scale ->
      is_Some (getpixel tile_img dx dy) /\
      getpixel (sheet st) (i mod tiles_per_row * 8 * scale + dx)
                          (i / tiles_per_row * 8 * scale + dy)
      = getpixel tile_img dx dy.
Proof.
  intros Hpal Ht Hs (_ & _ & _ & _ & Hpix) Hi. unfold sheet_rows in Hpix.
  destruct (create_tile_image_pixels (tile_grid chr_data i) palette scale
              (tile_grid_index_grid chr_data i) Hpal Hs)
    as (tile_img & Et & _ & _ & _ & Tpix).
  exists tile_img.
  split; [apply decode_tile_inside; [lia|now apply num_tiles_inside]|].
  split; [exact Et|].
  intros dx dy Hdx Hdy. rewrite Tpix by assumption. split; [eauto|].
  pose proof (Z.mod_pos_bound i tiles_per_row ltac:(lia)) as Hcol.
  pose proof (tile_row_bound (len chr_data / 16) tiles_per_row i Ht Hi) as Hrow.
  replace (i mod tiles_per_row * 8 * scale + dx)
    with (i mod tiles_per_row * (8 * scale) + dx) by lia.
  replace (i / tiles_per_row * 8 * scale + dy)
    with (i / tiles_per_row * (8 * scale) + dy) by lia.
  rewrite Hpix by (apply block_bound; assumption).
  unfold sheet_pixel. cbv zeta.
  rewrite !block_div, !block_mod by assumption.
  replace (i / tiles_per_row * tiles_per_row + i mod tiles_per_row) with i
    by (pose proof (Z.div_mod i tiles_per_row ltac:(lia)); lia).
  replace (i <? len chr_data / 16) with true
    by (symmetry; apply Z.ltb_lt; lia).
  reflexivity.
Qed.

Lemma sheet_composed_background (chr_data : bytes) (palette : list color)
    (tiles_per_row scale px py : Z) (st : sheet_state) :
  sheet_composed chr_data palette tiles_per_row scale (len chr_data / 16) st ->
  0 <= px < width (sheet st) -> 0 <= py < height (sheet st) ->
  len chr_data / 16 <= py / (8 * scale) * tiles_per_row + px / (8 * scale) ->
  getpixel (sheet st) px py = Some black.
Proof.
  intros (_ & Hw & Hh & _ & Hpix) Hpx Hpy Hcell.
  rewrite Hpix by lia. unfold sheet_pixel. cbv zeta.
  replace (_ <? len chr_data / 16) with false
    by (symmetry; apply Z.ltb_ge; lia).
  reflexivity.
Qed.

Lemma sheet_composed_size (chr_data : bytes) (palette : list color)
    (tiles_per_row scale : Z) (st : sheet_state) :
  1 <= tiles_per_row -> 1 <= scale ->
  sheet_composed chr_data palette tiles_per_row scale (len chr_data / 16) st ->
  0 < width (sheet st) /\
  (1 <= len chr_data / 16 -> 0 < height (sheet st)) /\
  (len chr_data / 16 = 0 -> height (sheet st) = 0).
Proof.
  intros Ht Hs (_ & Hw & Hh & _). unfold sheet_rows in Hh.
  pose proof (rows_ceil (len chr_data / 16) tiles_per_row Ht) as Hr.
  rewrite Hw, Hh.
  set (rows := (len chr_data / 16 + tiles_per_row - 1) / tiles_per_row) in *.
  split; [nia|]. split.
  - intros Hn. assert (1 <= rows) by nia. nia.
  - intros Hn. assert (rows = 0) by nia. nia.
Qed.

(** C5. For every input buffer (the other arguments being valid: a
    4-colour palette, [tiles_per_row >= 1], [scale >= 1]) the sheet is
    composed, without error, of exactly [len buffer // 16] tiles: there is
    one paste per complete tile, tiles [0 .. len//16 - 1] in buffer order,
    the box of each of them in the sheet shows its raster, and every cell
    after the last one is left black; the bytes after the last complete
    tile do not reach the sheet.  When there is at least one complete
    tile, [main] writes a warning exactly if the length is not a multiple
    of 16, saves the sheet and ends normally; with no complete tile the
    sheet is empty and saving it raises.  A buffer of length 17 gives
    exactly 1 tile and a warning, not a failure. *)
Theorem tile_count_spec (chr_data : bytes) (palette : list color)
    (tiles_per_row scale : Z) :
  length palette = 4%nat -> 1 <= tiles_per_row -> 1 <= scale ->
  exists st,
    create_sprite_sheet_traced chr_data palette tiles_per_row scale = Ok st /\
    create_sprite_sheet chr_data palette tiles_per_row scale = Ok (sheet st) /\
    len (pasted st) = len chr_data / 16 /\
    map (fun p => fst (fst p)) (pasted st) = range (len chr_data / 16) /\
    (forall i, 0 <= i < len chr_data / 16 ->
       exists tile_pixels tile_img,
         decode_tile chr_data i = Ok tile_pixels /\
         create_tile_image tile_pixels palette scale = Ok tile_img /\
         forall dx dy, 0 <= dx < 8 * scale -> 0 <= dy < 8 * scale ->
           is_Some (getpixel tile_img dx dy) /\
           getpixel (sheet st) (i mod tiles_per_row * 8 * scale + dx)
                               (i / tiles_per_row * 8 * scale + dy)
           = getpixel tile_img dx dy) /\
    (forall px py,
       0 <= px < width (sheet st) -> 0 <= py < height (sheet st) ->
       len chr_data / 16 <= py / (8 * scale) * tiles_per_row + px / (8 * scale) ->
       getpixel (sheet st) px py = Some black) /\
    create_sprite_sheet_traced
      (take (Z.to_nat (16 * (len chr_data / 16))) chr_data)
      palette tiles_per_row scale = Ok st /\
    (forall palette_arg,
       get_palette_colors palette_arg = Ok palette ->
       (1 <= len chr_data / 16 ->
        main (Some chr_data) palette_arg tiles_per_row scale
        = ((if len chr_data mod 16 =? 0 then []
            else [Stderr_warning_length (len chr_data)])
           ++ [Stdout_converting (len chr_data / 16); File_saved (sheet st);
               Stdout_saved;
               Stdout_dimensions (width (sheet st)) (height (sheet st))],
           Exit_ok)) /\
       (len chr_data / 16 = 0 ->
        main (Some chr_data) palette_arg tiles_per_row scale
        = ((if len chr_data mod 16 =? 0 then []
            else [Stderr_warning_length (len chr_data)])
           ++ [Stdout_converting 0],
           Exit_uncaught ValueError_save_empty))) /\
    (len chr_data = 17 ->
     len (pasted st) = 1 /\
     forall palette_arg,
       get_palette_colors palette_arg = Ok palette ->
       main (Some chr_data) palette_arg tiles_per_row scale
       = ([Stderr_warning_length 17; Stdout_converting 1;
           File_saved (sheet st); Stdout_saved;
           Stdout_dimensions (width (sheet st)) (height (sheet st))],
          Exit_ok)).
Proof.
  intros Hpal Ht Hs.
  destruct (create_sprite_sheet_traced_composed chr_data palette tiles_per_row
              scale Hpal Ht Hs) as (st & E & Hst).
  pose proof Hst as (_ & _ & _ & Hlog & _).
  destruct (sheet_composed_size chr_data palette tiles_per_row scale st Ht Hs Hst)
    as (Hw & Hh & Hh0).
  assert (Hn : 0 <= len chr_data / 16)
    by (apply Z.div_pos; [apply len_nonneg|lia]).
  assert (Hcount : len (pasted st) = len chr_data / 16).
  { rewrite Hlog. unfold len at 1. rewrite length_map.
    fold (len (range (len chr_data / 16))). rewrite range_length. lia. }
  exists st. split; [exact E|].
  split; [unfold create_sprite_sheet; now rewrite E|].
  split; [exact Hcount|]. split.
  { rewrite Hlog, map_map. unfold placement. simpl. apply map_id. }
  split.
  { intros i Hi.
    destruct (sheet_composed_tile chr_data palette tiles_per_row scale i st
                Hpal Ht Hs Hst Hi) as (tile_img & Ed & Et & Hbox).
    exists (tile_grid chr_data i), tile_img. auto. }
  split.
  { intros px py Hpx Hpy Hcell.
    now apply (sheet_composed_background chr_data palette tiles_per_row scale). }
  split; [now rewrite create_sprite_sheet_traced_take|].
  split.
  { intros palette_arg Harg. split.
    - intros H1. apply (main_converts _ _ palette); auto.
    - intros H0. rewrite <- H0 at 2.
      apply (main_empty_sheet _ _ palette _ _ st); auto. }
  intros H17. split; [rewrite Hcount, H17; reflexivity|].
  intros palette_arg Harg.
  rewrite (main_converts _ _ _ _ _ _ Harg E Hw); [rewrite H17; reflexivity|].
  apply Hh. rewrite H17. vm_compute. discriminate.
Qed.

Lemma tile_count_spec_witness :
  exists st,
    create_sprite_sheet_traced buffer_17 default_palette 16 1 = Ok st /\
    len (pasted st) = 1.
Proof.
  destruct (tile_count_spec buffer_17 default_palette 16 1)
    as (st & E & _ & _ & _ & _ & _ & _ & _ & H17).
  - reflexivity.
  - lia.
  - lia.
  - exists st. split; [exact E|]. apply H17. reflexivity.
Defined.

(** C6. For every buffer with [tile_count >= 1] complete tiles, every
    [tiles_per_row >= 1] and [scale >= 1] (and a 4-colour palette),
    [create_sprite_sheet] returns a sheet [tiles_per_row * 8 * scale] wide
    and [rows * 8 * scale] tall, where [rows] is the ceiling of
    [tile_count / tiles_per_row], that is the integer with
    [(rows - 1) * tiles_per_row < tile_count <= rows * tiles_per_row];
    17 tiles at 16 per row give 2 rows whatever the scale. *)
Theorem sheet_size_spec (chr_data : bytes) (palette : list color)
    (tiles_per_row scale : Z) :
  length palette = 4%nat ->
  1 <= len chr_data / 16 -> 1 <= tiles_per_row -> 1 <= scale ->
  exists sheet rows,
    create_sprite_sheet chr_data palette tiles_per_row scale = Ok sheet /\
    (rows - 1) * tiles_per_row < len chr_data / 16 <= rows * tiles_per_row /\
    width sheet = tiles_per_row * 8 * scale /\
    height sheet = rows * 8 * scale /\
    (len chr_data / 16 = 17 -> tiles_per_row = 16 -> rows = 2).
Proof.
  intros Hpal Hn Ht Hs.
  destruct (create_sprite_sheet_traced_composed chr_data palette tiles_per_row
              scale Hpal Ht Hs) as (st & E & _ & Hw & Hh & _).
  unfold sheet_rows in Hh.
  exists (sheet st), ((len chr_data / 16 + tiles_per_row - 1) / tiles_per_row).
  split; [unfold create_sprite_sheet; now rewrite E|].
  split; [now apply rows_ceil|].
  split; [rewrite Hw; lia|]. split; [rewrite Hh; lia|].
  intros -> ->. reflexivity.
Qed.

Lemma sheet_size_spec_witness :
  exists sheet,
    create_sprite_sheet tile_0x80 default_palette 16 3 = Ok sheet /\
    width sheet = 384 /\ height sheet = 24.
Proof.
  destruct (sheet_size_spec tile_0x80 default_palette 16 3)
    as (sheet & rows & E & Hrows & Hw & Hh & _).
  - reflexivity.
  - vm_compute. discriminate.
  - lia.
  - lia.
  - exists sheet. split; [exact E|]. split; [exact Hw|].
    change (len tile_0x80 / 16) with 1 in Hrows.
    assert (rows = 1) as -> by lia. exact Hh.
Defined.

(** C7. For every valid tile index [i] (and valid other arguments), the
    [i]-th paste call puts the rasterised tile [i] at pixel
    [((i mod tiles_per_row) * 8 * scale, (i div tiles_per_row) * 8 * scale)],
    and in the finished sheet the box with that top-left corner shows
    exactly that tile's raster: tiles fill the grid in row-major order,
    in the order of the buffer.  Tile 16 at 16 tiles per row lands at row
    1, column 0. *)
Theorem tile_placement_spec (chr_data : bytes) (palette : list color)
    (tiles_per_row scale i : Z) :
  length palette = 4%nat -> 1 <= tiles_per_row -> 1 <= scale ->
  0 <= i < len chr_data / 16 ->
  exists st tile_pixels tile_img,
    create_sprite_sheet_traced chr_data palette tiles_per_row scale = Ok st /\
    decode_tile chr_data i = Ok tile_pixels /\
    create_tile_image tile_pixels palette scale = Ok tile_img /\
    pasted st !! Z.to_nat i
    = Some (i, i mod tiles_per_row * 8 * scale, i / tiles_per_row * 8 * scale) /\
    (forall dx dy, 0 <= dx < 8 * scale -> 0 <= dy < 8 * scale ->
       is_Some (getpixel tile_img dx dy) /\
       getpixel (sheet st) (i mod tiles_per_row * 8 * scale + dx)
                           (i / tiles_per_row * 8 * scale + dy)
       = getpixel tile_img dx dy) /\
    (tiles_per_row = 16 -> i = 16 ->
     pasted st !! 16%nat = Some (16, 0 * 8 * scale, 1 * 8 * scale)).
Proof.
  intros Hpal Ht Hs Hi.
  destruct (create_sprite_sheet_traced_composed chr_data palette tiles_per_row
              scale Hpal Ht Hs) as (st & E & _ & _ & _ & Hlog & Hpix).
  unfold sheet_rows in Hpix.
  destruct (create_tile_image_pixels (tile_grid chr_data i) palette scale
              (tile_grid_index_grid chr_data i) Hpal Hs)
    as (tile_img & Et & Twf & Tw & Th & Tpix).
  assert (Hentry : pasted st !! Z.to_nat i
            = Some (i, i mod tiles_per_row * 8 * scale,
                    i / tiles_per_row * 8 * scale)).
  { rewrite Hlog, map_lookup, range_lookup by assumption. simpl.
    unfold placement. do 2 f_equal; [f_equal|]; lia. }
  exists st, (tile_grid chr_data i), tile_img.
  split; [exact E|].
  split; [apply decode_tile_inside; [lia|now apply num_tiles_inside]|].
  split; [exact Et|]. split; [exact Hentry|]. split.
  - intros dx dy Hdx Hdy. rewrite Tpix by assumption.
    split; [eauto|].
    pose proof (Z.mod_pos_bound i tiles_per_row ltac:(lia)) as Hcol.
    pose proof (tile_row_bound (len chr_data / 16) tiles_per_row i Ht Hi)
      as Hrow.
    replace (i mod tiles_per_row * 8 * scale + dx)
      with (i mod tiles_per_row * (8 * scale) + dx) by lia.
    replace (i / tiles_per_row * 8 * scale + dy)
      with (i / tiles_per_row * (8 * scale) + dy) by lia.
    rewrite Hpix by (apply block_bound; assumption).
    unfold sheet_pixel. cbv zeta.
    rewrite !block_div, !block_mod by assumption.
    replace (i / tiles_per_row * tiles_per_row + i mod tiles_per_row) with i
      by (pose proof (Z.div_mod i tiles_per_row ltac:(lia)); lia).
    replace (i <? len chr_data / 16) with true
      by (symmetry; apply Z.ltb_lt; lia).
    reflexivity.
  - intros -> ->. exact Hentry.
Qed.

Lemma tile_placement_spec_witness :
  exists st,
    create_sprite_sheet_traced buffer_2_tiles default_palette 1 2 = Ok st /\
    pasted st !! 1%nat = Some (1, 0, 16) /\
    getpixel (sheet st) 0 16 = Some (0xff, 0xff, 0xff).
Proof.
  destruct (tile_placement_spec buffer_2_tiles default_palette 1 2 1)
    as (st & tile_pixels & tile_img & E & Ed & Et & Hentry & Hpix & _).
  - reflexivity.
  - lia.
  - lia.
  - vm_compute. split; [discriminate|reflexivity].
  - exists st. split; [exact E|]. split; [exact Hentry|].
    destruct (Hpix 0 0) as [_ H]; [lia|lia|].
    change (1 mod 1 * 8 * 2 + 0) with 0 in H.
    change (1 / 1 * 8 * 2 + 0) with 16 in H.
    rewrite H. vm_compute in Ed. injection Ed as <-.
    vm_compute in Et. injection Et as <-. reflexivity.
Defined.

(** C10. For every buffer shorter than 16 bytes, every [tiles_per_row >= 1]
    and [scale >= 1] (and any palette), [create_sprite_sheet] raises
    nothing and returns an empty sheet of width [tiles_per_row * 8 * scale]
    and height 0: the row count [(0 + tiles_per_row - 1) // tiles_per_row]
    is 0 and the tile loop runs over the empty range. *)
Theorem empty_sheet_spec (chr_data : bytes) (palette : list color)
    (tiles_per_row scale : Z) :
  len chr_data < 16 -> 1 <= tiles_per_row -> 1 <= scale ->
  len chr_data / 16 = 0 /\
  floordiv (len chr_data / 16 + tiles_per_row - 1) tiles_per_row = Ok 0 /\
  range (len chr_data / 16) = [] /\
  exists st,
    create_sprite_sheet_traced chr_data palette tiles_per_row scale = Ok st /\
    create_sprite_sheet chr_data palette tiles_per_row scale = Ok (sheet st) /\
    pasted st = [] /\
    sheet st = mkImage (tiles_per_row * 8 * scale) 0 [].
Proof.
  intros Hlen Ht Hs. pose proof (len_nonneg chr_data) as Hn.
  assert (H0 : len chr_data / 16 = 0) by (apply Z.div_small; lia).
  assert (Hrows : floordiv (len chr_data / 16 + tiles_per_row - 1)
                    tiles_per_row = Ok 0).
  { unfold floordiv. destruct (tiles_per_row =? 0) eqn:E; [lia|].
    rewrite H0, Z.div_small by lia. reflexivity. }
  split; [exact H0|]. split; [exact Hrows|].
  split; [rewrite H0; reflexivity|].
  assert (Hst : create_sprite_sheet_traced chr_data palette tiles_per_row scale
                = Ok (mkSheetState (mkImage (tiles_per_row * 8 * scale) 0 []) [])).
  { unfold create_sprite_sheet_traced. cbv zeta. rewrite Hrows. cbn [bind].
    rewrite H0. change (range 0) with (@nil Z). cbn [for_each].
    unfold new.
    replace ((tiles_per_row * (8 * scale) <? 0) || (0 * (8 * scale) <? 0))
      with false by (symmetry; apply orb_false_iff; lia).
    cbn [bind].
    replace (Z.to_nat (tiles_per_row * (8 * scale) * (0 * (8 * scale))))
      with 0%nat by lia.
    simpl. do 3 f_equal. lia. }
  eexists. split; [exact Hst|]. unfold create_sprite_sheet. rewrite Hst.
  repeat split; reflexivity.
Qed.

Lemma empty_sheet_spec_witness :
  create_sprite_sheet [xff; x00; x3c] default_palette 16 2
  = Ok (mkImage 256 0 []).
Proof.
  destruct (empty_sheet_spec [xff; x00; x3c] default_palette 16 2)
    as (_ & _ & _ & st & _ & E & _ & Hsheet).
  - vm_compute. reflexivity.
  - lia.
  - lia.
  - rewrite E, Hsheet. reflexivity.
Defined.

(** * Further properties *)

(** ** Slices and failing loops *)

Lemma bound_range n i : 0 <= n -> 0 <= bound n i <= n.
Proof. intros Hn. unfold bound. destruct (i <? 0); lia. Qed.

Lemma slice_length {A} (l : list A) a b :
  len (slice l a b) = Z.max 0 (bound (len l) b - bound (len l) a).
Proof.
  pose proof (len_nonneg l) as Hn.
  pose proof (bound_range (len l) a Hn) as Ha.
  pose proof (bound_range (len l) b Hn) as Hb.
  unfold slice. unfold len in *. rewrite length_take, length_drop. lia.
Qed.

Lemma slice_from_end {A} (l : list A) a b :
  a < 0 -> b < 0 -> 0 <= a + len l ->
  slice l a b = slice l (a + len l) (Z.max 0 (b + len l)).
Proof.
  intros Ha Hb Hal. pose proof (len_nonneg l) as Hn. unfold slice.
  replace (bound (len l) (a + len l)) with (bound (len l) a)
    by (unfold bound; destruct (a <? 0) eqn:E1, (a + len l <? 0) eqn:E2; lia).
  replace (bound (len l) (Z.max 0 (b + len l))) with (bound (len l) b)
    by (unfold bound; destruct (b <? 0) eqn:E1,
          (Z.max 0 (b + len l) <? 0) eqn:E2; lia).
  reflexivity.
Qed.

Lemma index_raises {A} (l : list A) i e : index l i = Raise e -> e = IndexError.
Proof.
  unfold index.
  destruct ((0 <=? _) && (_ <? len l)); [|congruence].
  destruct (l !! _); congruence.
Qed.

Lemma index_beyond {A} (l : list A) i : len l <= i -> index l i = Raise IndexError.
Proof.
  intros H. pose proof (len_nonneg l). unfold index.
  destruct (i <? 0) eqn:E; [lia|].
  replace ((0 <=? i) && (i <? len l)) with false; [reflexivity|].
  symmetry. apply andb_false_iff. right. lia.
Qed.

(** A comprehension raises as soon as one element does. *)
Lemma collect_raises {A B} (f : A -> result B) (l : list A) (E : exn) :
  (forall a e, In a l -> f a = Raise e -> e = E) ->
  (exists a e, In a l /\ f a = Raise e) ->
  collect f l = Raise E.
Proof.
  induction l as [|a l IH]; intros Honly (a0 & e0 & Hin & Hf).
  - destruct Hin.
  - simpl. destruct (f a) as [b|e] eqn:Ea.
    + simpl. rewrite IH; [reflexivity| |].
      * intros a1 e1 H1. apply Honly. now right.
      * destruct Hin as [->|Hin]; [congruence|]. eauto.
    + simpl. f_equal. apply (Honly a e); [now left|assumption].
Qed.

Lemma for_each_raises {S} (xs : list Z) (body : Z -> S -> result S) (E : exn) :
  (forall x s e, In x xs -> body x s = Raise e -> e = E) ->
  forall s e, for_each xs body s = Raise e -> e = E.
Proof.
  induction xs as [|x xs IH]; intros Honly s e; simpl; [discriminate|].
  destruct (body x s) as [s1|e1] eqn:Eb; simpl.
  - apply IH. intros x0 s0 e0 Hin Hb.
    apply (Honly x0 s0 e0); [now right|assumption].
  - intros [= <-]. apply (Honly x s e1); [now left|assumption].
Qed.

Lemma for_each_Ok_each {S} (xs : list Z) (body : Z -> S -> result S) s s' :
  for_each xs body s = Ok s' ->
  forall x, In x xs -> exists s1 s2, body x s1 = Ok s2.
Proof.
  revert s. induction xs as [|x xs IH]; intros s H x0 Hin; [destruct Hin|].
  simpl in H. destruct (body x s) as [s1|e1] eqn:Eb; simpl in H; [|discriminate].
  destruct Hin as [<-|Hin]; [eauto|]. eapply IH; eassumption.
Qed.

(** ** Tile decoder: boundaries *)

Lemma decode_tile_short_high (chr_data : bytes) (i : Z) :
  len (slice chr_data (i * 16 + 8) (i * 16 + 16)) < 8 ->
  decode_tile chr_data i = Raise IndexError.
Proof.
  intros Hshort. unfold decode_tile. cbv zeta. apply collect_raises.
  - intros y e _ Hy.
    destruct (index (slice chr_data (i * 16) (i * 16 + 8)) y) eqn:E1;
      simpl in Hy; [|injection Hy as <-; now apply index_raises in E1].
    destruct (index (slice chr_data (i * 16 + 8) (i * 16 + 16)) y) eqn:E2;
      simpl in Hy; [discriminate|].
    injection Hy as <-. now apply index_raises in E2.
  - assert (E2 : index (slice chr_data (i * 16 + 8) (i * 16 + 16)) 7
                 = Raise IndexError) by (apply index_beyond; lia).
    destruct (index (slice chr_data (i * 16) (i * 16 + 8)) 7) as [lo|e] eqn:E1.
    + exists 7, IndexError. split; [apply range_elem; lia|].
      rewrite E1. simpl. rewrite E2. reflexivity.
    + exists 7, e. split; [apply range_elem; lia|]. rewrite E1. reflexivity.
Qed.

(** X1. A tile that does not lie wholly inside the buffer cannot be
    decoded: for a tile index [i >= 0] with [len buffer < (i+1)*16],
    [decode_tile] raises [IndexError].  With C1 this makes
    [(i+1)*16 <= len buffer] exactly the condition for decoding tile
    [i >= 0]. *)
Theorem decode_tile_out_of_range (chr_data : bytes) (i : Z) :
  0 <= i -> len chr_data < (i + 1) * 16 ->
  decode_tile chr_data i = Raise IndexError.
Proof.
  intros Hi Hlen. apply decode_tile_short_high.
  pose proof (len_nonneg chr_data) as Hn.
  rewrite slice_length. unfold bound.
  destruct (i * 16 + 16 <? 0) eqn:E1; [lia|].
  destruct (i * 16 + 8 <? 0) eqn:E2; lia.
Qed.

Lemma decode_tile_out_of_range_witness :
  decode_tile buffer_17 1 = Raise IndexError.
Proof. apply decode_tile_out_of_range; [lia|vm_compute; reflexivity]. Defined.

(** X2. Negative tile indices follow Python's slicing: index [-1] raises
    [IndexError] on every buffer (the high plane [chr_data[-8:0]] is
    empty), while on a buffer of exactly [n] tiles an index [i] with
    [-n <= i <= -2] decodes tile [n + i]. *)
Theorem decode_tile_negative_index (chr_data : bytes) :
  decode_tile chr_data (-1) = Raise IndexError /\
  forall n i, len chr_data = 16 * n -> - n <= i <= -2 ->
    decode_tile chr_data i = decode_tile chr_data (n + i) /\
    decode_tile chr_data i = Ok (tile_grid chr_data (n + i)).
Proof.
  pose proof (len_nonneg chr_data) as Hn. split.
  - apply decode_tile_short_high. rewrite slice_length.
    change (-1 * 16 + 16) with 0. change (-1 * 16 + 8) with (-8).
    pose proof (bound_range (len chr_data) (-8) Hn).
    rewrite (bound_inside (len chr_data) 0) by lia. lia.
  - intros n i Hlen Hi.
    assert (Heq : decode_tile chr_data i = decode_tile chr_data (n + i)).
    { unfold decode_tile. cbv zeta.
      rewrite (slice_from_end chr_data (i * 16) (i * 16 + 8)) by lia.
      rewrite (slice_from_end chr_data (i * 16 + 8) (i * 16 + 16)) by lia.
      replace (i * 16 + len chr_data) with ((n + i) * 16) by lia.
      replace (Z.max 0 (i * 16 + 8 + len chr_data)) with ((n + i) * 16 + 8)
        by lia.
      replace (i * 16 + 8 + len chr_data) with ((n + i) * 16 + 8) by lia.
      replace (Z.max 0 (i * 16 + 16 + len chr_data)) with ((n + i) * 16 + 16)
        by lia.
      reflexivity. }
    split; [exact Heq|]. rewrite Heq. apply decode_tile_inside; lia.
Qed.

Lemma decode_tile_negative_index_witness :
  decode_tile buffer_2_tiles (-2) = Ok (tile_grid buffer_2_tiles 0).
Proof.
  destruct (decode_tile_negative_index buffer_2_tiles) as [_ H].
  apply (H 2 (-2)); [reflexivity|lia].
Defined.

(** ** Tile decoder: no information is lost *)

Lemma byte_of_bits_val (b : Byte.byte) :
  byte_of_bits (bit (byte_val b) 7) (bit (byte_val b) 6) (bit (byte_val b) 5)
               (bit (byte_val b) 4) (bit (byte_val b) 3) (bit (byte_val b) 2)
               (bit (byte_val b) 1) (bit (byte_val b) 0) = b.
Proof. destruct b; vm_compute; reflexivity. Qed.

Lemma byte_val_bits_inj (b b' : Byte.byte) :
  (forall k, 0 <= k < 8 -> bit (byte_val b) k = bit (byte_val b') k) -> b = b'.
Proof.
  intros H. rewrite <- (byte_of_bits_val b), <- (byte_of_bits_val b').
  now rewrite (H 7), (H 6), (H 5), (H 4), (H 3), (H 2), (H 1), (H 0) by lia.
Qed.

Lemma decode_pixel_inj lo hi lo' hi' x :
  x <= 7 -> decode_pixel lo hi x = decode_pixel lo' hi' x ->
  bit lo (7 - x) = bit lo' (7 - x) /\ bit hi (7 - x) = bit hi' (7 - x).
Proof.
  intros Hx. rewrite !decode_pixel_bits by assumption. unfold bit.
  destruct (Z.testbit lo (7 - x)), (Z.testbit hi (7 - x)),
    (Z.testbit lo' (7 - x)), (Z.testbit hi' (7 - x));
    cbv; intros H; split; congruence.
Qed.

Lemma tile_grid_planes (a b : bytes) (i j y : Z) :
  tile_grid a i = tile_grid b j -> 0 <= y < 8 ->
  forall x, 0 <= x < 8 ->
    bit (byte_at a (i * 16 + y)) (7 - x) = bit (byte_at b (j * 16 + y)) (7 - x) /\
    bit (byte_at a (i * 16 + 8 + y)) (7 - x)
    = bit (byte_at b (j * 16 + 8 + y)) (7 - x).
Proof.
  intros Hgrid Hy x Hx.
  assert (Hcell : cell (tile_grid a i) x y = cell (tile_grid b j) x y)
    by now rewrite Hgrid.
  rewrite !tile_grid_cell in Hcell by assumption.
  injection Hcell as Hcell. apply decode_pixel_inj in Hcell; [assumption|lia].
Qed.

Lemma tile_record_lookup (a : bytes) (i k : Z) :
  0 <= i -> (i + 1) * 16 <= len a -> 0 <= k < 16 ->
  exists v, a !! Z.to_nat (i * 16 + k) = Some v /\
            slice a (i * 16) (i * 16 + 16) !! Z.to_nat k = Some v /\
            byte_at a (i * 16 + k) = byte_val v.
Proof.
  intros Hi Hlen Hk.
  destruct (lookup_lt_is_Some_2 a (Z.to_nat (i * 16 + k))) as [v Hv].
  { unfold len in Hlen. lia. }
  exists v. split; [assumption|]. split.
  - rewrite slice_inside_lookup by lia. assumption.
  - unfold byte_at. now rewrite Hv.
Qed.

(** X3. Decoding loses nothing: two tiles (of one buffer or of two) decode
    to the same grid exactly when their 16-byte records are equal. *)
Theorem decode_tile_injective (a b : bytes) (i j : Z) :
  0 <= i -> (i + 1) * 16 <= len a ->
  0 <= j -> (j + 1) * 16 <= len b ->
  (decode_tile a i = decode_tile b j
   <-> slice a (i * 16) (i * 16 + 16) = slice b (j * 16) (j * 16 + 16)).
Proof.
  intros Hi Ha Hj Hb. rewrite !decode_tile_inside by assumption. split.
  - intros Hok.
    assert (Hgrid : tile_grid a i = tile_grid b j) by congruence.
    clear Hok. apply list_eq. intros n.
    destruct (Nat.lt_ge_cases n 16) as [Hn|Hn].
    + destruct (tile_record_lookup a i (Z.of_nat n) Hi Ha ltac:(lia))
        as (va & _ & Hsa & Hva).
      destruct (tile_record_lookup b j (Z.of_nat n) Hj Hb ltac:(lia))
        as (vb & _ & Hsb & Hvb).
      rewrite Nat2Z.id in Hsa, Hsb. rewrite Hsa, Hsb. f_equal.
      apply byte_val_bits_inj. intros k Hk. rewrite <- Hva, <- Hvb.
      replace k with (7 - (7 - k)) by lia.
      assert (Hx : 0 <= 7 - k < 8) by lia. revert Hx.
      generalize (7 - k). intros x Hx.
      destruct (Z_lt_ge_dec (Z.of_nat n) 8) as [Hlow|Hhigh].
      * apply (tile_grid_planes a b i j (Z.of_nat n) Hgrid); lia.
      * pose proof (tile_grid_planes a b i j (Z.of_nat n - 8) Hgrid
                      ltac:(lia) x Hx) as [_ H].
        replace (i * 16 + 8 + (Z.of_nat n - 8)) with (i * 16 + Z.of_nat n)
          in H by lia.
        replace (j * 16 + 8 + (Z.of_nat n - 8)) with (j * 16 + Z.of_nat n)
          in H by lia.
        exact H.
    + pose proof (slice_inside_length a (i * 16) (i * 16 + 16)
                    ltac:(lia) ltac:(lia) ltac:(lia)) as La.
      pose proof (slice_inside_length b (j * 16) (j * 16 + 16)
                    ltac:(lia) ltac:(lia) ltac:(lia)) as Lb.
      unfold len in La, Lb. rewrite !lookup_ge_None_2 by lia. reflexivity.
  - intros Hrec. f_equal. unfold tile_grid. apply map_ext_in. intros y Hy.
    apply range_elem in Hy.
    destruct (tile_record_lookup a i y Hi Ha ltac:(lia)) as (la & _ & Hla & ->).
    destruct (tile_record_lookup b j y Hj Hb ltac:(lia)) as (lb & _ & Hlb & ->).
    destruct (tile_record_lookup a i (8 + y) Hi Ha ltac:(lia))
      as (ha & _ & Hha & Eha).
    destruct (tile_record_lookup b j (8 + y) Hj Hb ltac:(lia))
      as (hb & _ & Hhb & Ehb).
    replace (i * 16 + 8 + y) with (i * 16 + (8 + y)) by lia.
    replace (j * 16 + 8 + y) with (j * 16 + (8 + y)) by lia.
    rewrite Eha, Ehb. rewrite Hrec in Hla, Hha.
    replace la with lb by congruence. replace ha with hb by congruence.
    reflexivity.
Qed.

Lemma decode_tile_injective_witness :
  decode_tile buffer_2_tiles 0 = decode_tile buffer_17 0.
Proof.
  apply (decode_tile_injective buffer_2_tiles buffer_17 0 0);
    [lia|vm_compute; discriminate|lia|vm_compute; discriminate|reflexivity].
Defined.

(** ** Tile rasterizer: errors *)

Lemma putpixel_raises img x y c e : putpixel img x y c = Raise e -> e = IndexError.
Proof. unfold putpixel. destruct (inside img _ _); congruence. Qed.

Lemma paint_cell_raises tile_pixels palette scale x y pixels e :
  (let* row := index tile_pixels y in
   let* v := index row x in
   let* color := index palette v in
   for_each (range scale) (fun dy =>
     for_each (range scale) (fun dx pixels =>
       putpixel pixels (x * scale + dx) (y * scale + dy) color))
     pixels) = Raise e ->
  e = IndexError.
Proof.
  destruct (index tile_pixels y) as [row|e1] eqn:E1; simpl;
    [|intros [= <-]; now apply index_raises in E1].
  destruct (index row x) as [v|e2] eqn:E2; simpl;
    [|intros [= <-]; now apply index_raises in E2].
  destruct (index palette v) as [c|e3] eqn:E3; simpl;
    [|intros [= <-]; now apply index_raises in E3].
  apply for_each_raises. intros dy s1 e1 _.
  apply for_each_raises. intros dx s2 e2 _. apply putpixel_raises.
Qed.

Lemma paint_cell_fails tile_pixels palette scale x y pixels :
  0 <= x -> 0 <= y ->
  cell tile_pixels x y = None \/
  (exists v, cell tile_pixels x y = Some v /\ len palette <= v) ->
  (let* row := index tile_pixels y in
   let* v := index row x in
   let* color := index palette v in
   for_each (range scale) (fun dy =>
     for_each (range scale) (fun dx pixels =>
       putpixel pixels (x * scale + dx) (y * scale + dy) color))
     pixels) = Raise IndexError.
Proof.
  intros Hx Hy Hbad. unfold cell in Hbad. rewrite (index_nonneg tile_pixels y Hy).
  destruct (tile_pixels !! Z.to_nat y) as [row|]; [|reflexivity]. simpl.
  rewrite (index_nonneg row x Hx).
  destruct (row !! Z.to_nat x) as [v|]; [|reflexivity]. simpl.
  destruct Hbad as [Hbad|(v' & [= <-] & Hv)]; [discriminate|].
  now rewrite index_beyond.
Qed.

(** X4. [create_tile_image] fails in two ways.  A negative scale raises
    Pillow's [ValueError] before anything is read.  With [scale >= 0], if
    some cell of the 8x8 area is missing from the grid, or holds an index
    at or beyond the palette's length, it raises [IndexError]: a palette
    shorter than the indices in use is not padded. *)
Theorem create_tile_image_errors (tile_pixels : list (list Z))
    (palette : list color) (scale : Z) :
  (scale < 0 ->
   create_tile_image tile_pixels palette scale = Raise ValueError_image_size) /\
  (0 <= scale ->
   forall x y, 0 <= x < 8 -> 0 <= y < 8 ->
     cell tile_pixels x y = None \/
     (exists v, cell tile_pixels x y = Some v /\ len palette <= v) ->
     create_tile_image tile_pixels palette scale = Raise IndexError).
Proof.
  split.
  - intros Hs. unfold create_tile_image. rewrite new_negative by lia.
    reflexivity.
  - intros Hs x y Hx Hy Hbad. unfold create_tile_image.
    destruct (new_spec (8 * scale) (8 * scale)) as (img0 & E0 & _);
      [lia|lia|].
    rewrite E0. cbn [bind].
    match goal with |- ?run = _ => destruct run as [img|e] eqn:Erun end.
    + exfalso.
      destruct (for_each_Ok_each _ _ _ _ Erun y) as (s1 & s2 & Ey);
        [apply range_elem; lia|].
      destruct (for_each_Ok_each _ _ _ _ Ey x) as (s3 & s4 & Ex);
        [apply range_elem; lia|].
      rewrite paint_cell_fails in Ex by (lia || assumption). discriminate.
    + f_equal. revert Erun. apply for_each_raises. intros y1 s1 e1 _.
      apply for_each_raises. intros x1 s2 e2 _. apply paint_cell_raises.
Qed.

Lemma create_tile_image_errors_witness :
  create_tile_image grid_0x80 default_palette (-1) = Raise ValueError_image_size /\
  create_tile_image grid_0x80 [black] 2 = Raise IndexError.
Proof.
  destruct (create_tile_image_errors grid_0x80 default_palette (-1)) as [H1 _].
  destruct (create_tile_image_errors grid_0x80 [black] 2) as [_ H2].
  split; [apply H1; lia|].
  apply (H2 ltac:(lia) 0 0); [lia|lia|].
  right. exists 1. split; [reflexivity|vm_compute; discriminate].
Defined.

(** ** Sheet compositor: errors *)

Lemma floordiv_Ok a b : b <> 0 -> floordiv a b = Ok (a / b).
Proof. intros H. unfold floordiv. destruct (b =? 0) eqn:E; [lia|reflexivity]. Qed.

Lemma range_cons n : 1 <= n -> exists rest, range n = 0 :: rest.
Proof.
  intros H. unfold range. destruct (Z.to_nat n) as [|m] eqn:E; [lia|].
  simpl. eauto.
Qed.

(** X5. [create_sprite_sheet] rejects invalid layout arguments on every
    buffer and palette: [tiles_per_row = 0] raises [ZeroDivisionError], a
    negative scale raises Pillow's [ValueError] (from the sheet or from
    the first tile), and so does a negative [tiles_per_row] with
    [scale >= 1]. *)
Theorem create_sprite_sheet_errors (chr_data : bytes) (palette : list color)
    (tiles_per_row scale : Z) :
  (tiles_per_row = 0 ->
   create_sprite_sheet chr_data palette tiles_per_row scale
   = Raise ZeroDivisionError) /\
  (tiles_per_row <> 0 -> scale < 0 ->
   create_sprite_sheet chr_data palette tiles_per_row scale
   = Raise ValueError_image_size) /\
  (tiles_per_row < 0 -> 1 <= scale ->
   create_sprite_sheet chr_data palette tiles_per_row scale
   = Raise ValueError_image_size).
Proof.
  unfold create_sprite_sheet, create_sprite_sheet_traced. cbv zeta.
  split; [|split].
  - intros ->. reflexivity.
  - intros Ht Hs. rewrite floordiv_Ok by assumption. cbn [bind].
    set (n := len chr_data / 16).
    set (rows := (n + tiles_per_row - 1) / tiles_per_row).
    destruct (Z_lt_ge_dec (tiles_per_row * (8 * scale)) 0) as [Hw|Hw];
      [rewrite new_negative by lia; reflexivity|].
    destruct (Z_lt_ge_dec (rows * (8 * scale)) 0) as [Hh|Hh];
      [rewrite new_negative by lia; reflexivity|].
    destruct (new_spec (tiles_per_row * (8 * scale)) (rows * (8 * scale)))
      as (sheet0 & E0 & _); [lia|lia|].
    rewrite E0. cbn [bind].
    assert (Hneg : tiles_per_row < 0) by nia.
    assert (Hn : 1 <= n).
    { pose proof (Z.div_mod (n + tiles_per_row - 1) tiles_per_row Ht) as Hdm.
      pose proof (Z.mod_neg_bound (n + tiles_per_row - 1) tiles_per_row Hneg).
      fold rows in Hdm. nia. }
    destruct (range_cons n Hn) as (rest & ->). cbn [for_each].
    rewrite decode_tile_inside by (try apply num_tiles_inside; fold n; lia).
    cbn [bind]. unfold create_tile_image. rewrite new_negative by lia.
    reflexivity.
  - intros Ht Hs. rewrite floordiv_Ok by lia. cbn [bind].
    rewrite new_negative by (left; nia). reflexivity.
Qed.

Lemma create_sprite_sheet_errors_witness :
  create_sprite_sheet buffer_17 default_palette (-1) (-1)
  = Raise ValueError_image_size /\
  create_sprite_sheet buffer_17 default_palette (-16) 1
  = Raise ValueError_image_size.
Proof.
  destruct (create_sprite_sheet_errors buffer_17 default_palette (-1) (-1))
    as (_ & H1 & _).
  destruct (create_sprite_sheet_errors buffer_17 default_palette (-16) 1)
    as (_ & _ & H2).
  split; [apply H1; lia|apply H2; lia].
Defined.

(** ** Sheet compositor: every pixel *)

Lemma create_sprite_sheet_composed (chr_data : bytes) (palette : list color)
    (tiles_per_row scale : Z) :
  length palette = 4%nat -> 1 <= tiles_per_row -> 1 <= scale ->
  exists sheet,
    create_sprite_sheet chr_data palette tiles_per_row scale = Ok sheet /\
    wf_image sheet /\
    width sheet = tiles_per_row * (8 * scale) /\
    height sheet = sheet_rows chr_data tiles_per_row * (8 * scale) /\
    forall px py, 0 <= px < width sheet -> 0 <= py < height sheet ->
      getpixel sheet px py
      = Some (sheet_pixel chr_data palette tiles_per_row scale
                          (len chr_data / 16) px py).
Proof.
  intros Hpal Ht Hs.
  destruct (create_sprite_sheet_traced_composed chr_data palette tiles_per_row
              scale Hpal Ht Hs) as (st & E & Hwf & Hw & Hh & _ & Hpix).
  exists (sheet st). unfold create_sprite_sheet. rewrite E.
  split; [reflexivity|]. do 3 (split; [assumption|]).
  intros px py Hpx Hpy. apply Hpix; lia.
Qed.

(** X6. Every pixel of the sheet is accounted for (palette of 4 RGB
    colours, each channel in 0..255).  The pixel [(px, py)]
    lies in the grid cell of linear index
    [i = (py // tile_size) * tiles_per_row + px // tile_size]; if [i] is a
    tile of the buffer the pixel has the palette colour of the cell of
    tile [i] it covers, and otherwise (the unused cells of the last row)
    it is the black the sheet was created with. *)
Theorem sheet_pixels_spec (chr_data : bytes) (palette : list color)
    (tiles_per_row scale : Z) :
  length palette = 4%nat -> Forall is_rgb palette ->
  1 <= tiles_per_row -> 1 <= scale ->
  exists sheet,
    create_sprite_sheet chr_data palette tiles_per_row scale = Ok sheet /\
    forall px py, 0 <= px < width sheet -> 0 <= py < height sheet ->
      let i := py / (8 * scale) * tiles_per_row + px / (8 * scale) in
      0 <= i /\
      (i < len chr_data / 16 ->
       exists grid v c,
         decode_tile chr_data i = Ok grid /\
         cell grid (px mod (8 * scale) / scale) (py mod (8 * scale) / scale)
         = Some v /\
         palette !! Z.to_nat v = Some c /\
         getpixel sheet px py = Some c) /\
      (len chr_data / 16 <= i -> getpixel sheet px py = Some black).
Proof.
  intros Hpal Hrgb Ht Hs.
  destruct (create_sprite_sheet_composed chr_data palette tiles_per_row scale
              Hpal Ht Hs) as (sheet & E & _ & Hw & Hh & Hpix).
  exists sheet. split; [exact E|]. intros px py Hpx Hpy i.
  rewrite (Hpix px py Hpx Hpy). unfold sheet_pixel. cbv zeta. fold i.
  assert (Hi : 0 <= i).
  { assert (0 <= py / (8 * scale)) by (apply Z.div_pos; lia).
    assert (0 <= px / (8 * scale)) by (apply Z.div_pos; lia).
    unfold i. nia. }
  split; [exact Hi|]. split.
  - intros Hlt. replace (i <? len chr_data / 16) with true
      by (symmetry; apply Z.ltb_lt; lia).
    pose proof (Z.mod_pos_bound px (8 * scale) ltac:(lia)) as Mx.
    pose proof (Z.mod_pos_bound py (8 * scale) ltac:(lia)) as My.
    assert (Hcx : 0 <= px mod (8 * scale) / scale < 8).
    { split; [apply Z.div_pos; lia|apply Z.div_lt_upper_bound; lia]. }
    assert (Hcy : 0 <= py mod (8 * scale) / scale < 8).
    { split; [apply Z.div_pos; lia|apply Z.div_lt_upper_bound; lia]. }
    destruct (index_grid_cell (tile_grid chr_data i) _ _
                (tile_grid_index_grid chr_data i) Hcx Hcy)
      as (row & v & Hrow & Hv & Hrange).
    destruct (lookup_lt_is_Some_2 palette (Z.to_nat v)) as [c Hc]; [lia|].
    exists (tile_grid chr_data i), v, c.
    split; [apply decode_tile_inside; [lia|apply num_tiles_inside; lia]|].
    split; [unfold cell; now rewrite Hrow|]. split; [assumption|].
    unfold tile_color, cell. rewrite Hrow, Hv. f_equal.
    rewrite (nth_lookup_Some _ _ black _ Hc).
    apply ink_rgb. now apply (palette_lookup_rgb palette (Z.to_nat v)).
  - intros Hge. replace (i <? len chr_data / 16) with false
      by (symmetry; apply Z.ltb_ge; lia).
    reflexivity.
Qed.

Lemma sheet_pixels_spec_witness :
  exists sheet,
    create_sprite_sheet buffer_17 default_palette 2 1 = Ok sheet /\
    getpixel sheet 0 0 = Some (0xff, 0xff, 0xff) /\
    getpixel sheet 8 0 = Some black.
Proof.
  destruct (sheet_pixels_spec buffer_17 default_palette 2 1)
    as (sheet & E & H);
    [reflexivity
    |unfold default_palette; forall_list ltac:(unfold is_rgb; lia)
    |lia|lia|].
  exists sheet. split; [exact E|].
  assert (Hsize : width sheet = 16 /\ height sheet = 8).
  { vm_compute in E. injection E as <-. split; reflexivity. }
  destruct Hsize as [Hw Hh]. split.
  - destruct (H 0 0) as (_ & Htile & _); [lia|lia|].
    destruct Htile as (grid & v & c & Eg & Hv & Hc & Hp);
      [vm_compute; reflexivity|].
    vm_compute in Eg. injection Eg as <-.
    vm_compute in Hv. injection Hv as <-.
    vm_compute in Hc. injection Hc as <-. exact Hp.
  - destruct (H 8 0) as (_ & _ & Hblack); [lia|lia|].
    apply Hblack. vm_compute. discriminate.
Defined.

(** ** Sheet compositor: scale *)

Lemma scaled_cell s x ox :
  1 <= s -> 0 <= ox < s -> (x * s + ox) / (8 * s) = x / (8 * 1).
Proof.
  intros Hs Hox. rewrite (Z.mul_comm 8 s), <- Z.div_div by lia.
  now rewrite block_div.
Qed.

Lemma scaled_offset s x ox :
  1 <= s -> 0 <= ox < s ->
  (x * s + ox) mod (8 * s) / s = x mod (8 * 1) / 1.
Proof.
  intros Hs Hox. rewrite Z.div_1_r. change (8 * 1) with 8.
  pose proof (Z.div_mod x 8 ltac:(lia)) as Hdm.
  pose proof (Z.mod_pos_bound x 8 ltac:(lia)) as Hm.
  assert (E : (x * s + ox) mod (8 * s) = x mod 8 * s + ox).
  { symmetry. apply (Z.mod_unique _ _ (x / 8)); nia. }
  rewrite E. now apply block_div.
Qed.

(** X7. The scale only magnifies: reducing the sheet made at [scale] by
    that factor, whichever pixel of each block is sampled, gives exactly
    the sheet made from the same buffer, palette and [tiles_per_row] at
    scale 1. *)
Theorem sheet_scale_invariant (chr_data : bytes) (palette : list color)
    (tiles_per_row scale : Z) :
  length palette = 4%nat -> 1 <= tiles_per_row -> 1 <= scale ->
  exists sheet sheet1,
    create_sprite_sheet chr_data palette tiles_per_row scale = Ok sheet /\
    create_sprite_sheet chr_data palette tiles_per_row 1 = Ok sheet1 /\
    forall ox oy, 0 <= ox < scale -> 0 <= oy < scale ->
      downsample scale ox oy sheet = sheet1.
Proof.
  intros Hpal Ht Hs.
  destruct (create_sprite_sheet_composed chr_data palette tiles_per_row scale
              Hpal Ht Hs) as (sheet & E & Hwf & Hw & Hh & Hpix).
  destruct (create_sprite_sheet_composed chr_data palette tiles_per_row 1
              Hpal Ht ltac:(lia)) as (sheet1 & E1 & Hwf1 & Hw1 & Hh1 & Hpix1).
  exists sheet, sheet1. split; [exact E|]. split; [exact E1|].
  intros ox oy Hox Hoy.
  destruct Hwf as (Hw0 & Hh0 & _).
  assert (Hdw : width sheet / scale = width sheet1).
  { rewrite Hw, Hw1.
    replace (tiles_per_row * (8 * scale)) with (tiles_per_row * 8 * scale) by lia.
    rewrite Z.div_mul by lia. lia. }
  assert (Hdh : height sheet / scale = height sheet1).
  { rewrite Hh, Hh1.
    replace (sheet_rows chr_data tiles_per_row * (8 * scale))
      with (sheet_rows chr_data tiles_per_row * 8 * scale) by lia.
    rewrite Z.div_mul by lia. lia. }
  apply image_ext.
  - apply downsample_wf; assumption.
  - assumption.
  - simpl. exact Hdw.
  - simpl. exact Hdh.
  - intros x y Hx Hy. simpl in Hx, Hy.
    rewrite downsample_getpixel by assumption.
    rewrite Hpix1 by lia.
    rewrite Hpix.
    + unfold sheet_pixel. cbv zeta.
      now rewrite !scaled_cell, !scaled_offset by assumption.
    + rewrite Hdw, Hw1 in Hx. rewrite Hw. nia.
    + rewrite Hdh, Hh1 in Hy. rewrite Hh. nia.
Qed.

Lemma sheet_scale_invariant_witness :
  exists sheet sheet1,
    create_sprite_sheet buffer_17 default_palette 16 3 = Ok sheet /\
    create_sprite_sheet buffer_17 default_palette 16 1 = Ok sheet1 /\
    downsample 3 1 1 sheet = sheet1.
Proof.
  destruct (sheet_scale_invariant buffer_17 default_palette 16 3)
    as (sheet & sheet1 & E & E1 & H); [reflexivity|lia|lia|].
  exists sheet, sheet1. split; [exact E|]. split; [exact E1|]. apply H; lia.
Defined.

(** ** Palette resolver: the table *)

Lemma NES_PALETTE_rgb : Forall is_rgb NES_PALETTE.
Proof. unfold NES_PALETTE. forall_list ltac:(unfold is_rgb; lia). Qed.

Lemma resolve_in_table i : In (resolve i) NES_PALETTE.
Proof. apply list_elem_of_In, list_elem_of_lookup. eexists. apply resolve_lookup. Qed.

Lemma reserved_slots_black :
  forallb (fun k => implb (12 <=? Z.of_nat k mod 16)
                          (match nth k NES_PALETTE (1, 1, 1) with
                           | (0, 0, 0) => true
                           | _ => false
                           end))
          (seq 0 64) = true.
Proof. vm_compute. reflexivity. Qed.

(** X8. Whatever integers are passed, the colours [get_palette_colors]
    returns are 8-bit RGB triples, and every index whose low four bits
    are 12 or more (so [0x0f], the first default index) resolves to
    black. *)
Theorem get_palette_colors_rgb (palette_indices : list Z) :
  exists colors,
    get_palette_colors palette_indices = Ok colors /\
    Forall is_rgb colors /\
    forall k i, palette_indices !! k = Some i -> 12 <= i mod 16 ->
                colors !! k = Some black.
Proof.
  exists (map resolve palette_indices).
  split; [apply get_palette_colors_map|]. split.
  - apply Forall_forall. intros c Hc. apply in_map_iff in Hc.
    destruct Hc as (i & <- & _).
    pose proof NES_PALETTE_rgb as Hrgb. rewrite Forall_forall in Hrgb.
    apply Hrgb, resolve_in_table.
  - intros k i Hk Hlow. rewrite map_lookup, Hk. simpl. f_equal.
    pose proof (Z.mod_pos_bound i 64 ltac:(lia)) as Hm.
    pose proof reserved_slots_black as Hslots.
    rewrite forallb_forall in Hslots.
    specialize (Hslots (Z.to_nat (i mod 64))).
    rewrite Z2Nat.id in Hslots by lia.
    replace (i mod 64 mod 16) with (i mod 16) in Hslots.
    2:{ change 64 with (16 * 4).
        rewrite Z.rem_mul_r, Z.mul_comm, Z.mod_add by lia.
        now rewrite Z.mod_mod by lia. }
    replace (12 <=? i mod 16) with true in Hslots
      by (symmetry; apply Z.leb_le; lia).
    cbn [implb] in Hslots.
    assert (Hin : In (Z.to_nat (i mod 64)) (seq 0 64)) by (apply in_seq; lia).
    specialize (Hslots Hin).
    pose proof (resolve_lookup i) as Hr.
    unfold resolve.
    rewrite (nth_indep NES_PALETTE black (1, 1, 1))
      by (rewrite NES_PALETTE_length; lia).
    destruct (nth (Z.to_nat (i mod 64)) NES_PALETTE (1, 1, 1)) as [[r g] b].
    destruct r, g, b; simpl in Hslots; try discriminate Hslots. reflexivity.
Qed.

(** ** ROM reader: banks *)

Lemma extract_chr_exact (rom_data : bytes) (address size : Z) :
  0 <= address -> 0 <= size -> address + size <= len rom_data ->
  extract_chr rom_data address size
  = Ok (take (Z.to_nat size) (drop (Z.to_nat address) rom_data)) /\
  len (take (Z.to_nat size) (drop (Z.to_nat address) rom_data)) = size.
Proof.
  intros Ha Hs H. rewrite extract_chr_returns by assumption.
  pose proof (slice_inside_length rom_data address (address + size)
                Ha ltac:(lia) H) as L.
  rewrite slice_inside in * by lia.
  replace (address + size - address) with size in * by lia.
  split; [reflexivity|lia].
Qed.

(** X10. [extract_chr_bank] reads the first 8 KiB of a 16 KiB PRG bank
    after the 16-byte header: it raises exactly when
    [16 + bank*0x4000 + 8192] exceeds the ROM size; for [bank >= 0] inside
    the ROM it returns those 8192 bytes, which are 512 complete tiles; and
    the windows of two different banks never overlap. *)
Theorem extract_chr_bank_spec (rom_data : bytes) (bank_number : Z) :
  let address := 16 + bank_number * 0x4000 in
  (extract_chr_bank rom_data bank_number
   = Raise (ValueError_rom address 8192 (len rom_data))
   <-> address + 8192 > len rom_data) /\
  (0 <= bank_number -> address + 8192 <= len rom_data ->
   exists chr_data,
     extract_chr_bank rom_data bank_number = Ok chr_data /\
     len chr_data = 8192 /\ len chr_data / 16 = 512 /\
     len chr_data mod 16 = 0 /\
     forall k, 0 <= k < 8192 ->
       chr_data !! Z.to_nat k = rom_data !! Z.to_nat (address + k)) /\
  (forall other, other <> bank_number ->
     get_prg_bank_address other + 8192 <= get_prg_bank_address bank_number \/
     get_prg_bank_address bank_number + 8192 <= get_prg_bank_address other).
Proof.
  cbv zeta. unfold extract_chr_bank, get_prg_bank_address. cbv zeta.
  split; [|split].
  - split; [|apply extract_chr_raises].
    intros E.
    destruct (Z_le_gt_dec (16 + bank_number * 0x4000 + 8192) (len rom_data))
      as [H|H]; [|assumption].
    rewrite extract_chr_returns in E by assumption. discriminate.
  - intros Hb H.
    destruct (extract_chr_exact rom_data (16 + bank_number * 0x4000) 8192)
      as [E L]; [lia|lia|assumption|].
    eexists. split; [exact E|]. split; [exact L|].
    rewrite L. split; [reflexivity|]. split; [reflexivity|].
    intros k Hk. rewrite lookup_take_lt, lookup_drop by lia. f_equal. lia.
  - intros other Hne. lia.
Qed.

Lemma extract_chr_bank_spec_witness :
  extract_chr_bank rom_2 0 = Raise (ValueError_rom 16 8192 2).
Proof.
  destruct (extract_chr_bank_spec rom_2 0) as [[_ H] _].
  apply H. vm_compute. reflexivity.
Defined.

(** X11. From ROM to sheet: the bytes [extract_chr_bank] returns for a
    bank [>= 0] go through the converter without a length warning, as 512
    tiles, and the saved sheet is [tiles_per_row * 8 * scale] wide; with
    16 tiles per row it is [128*scale] by [256*scale] pixels. *)
Theorem bank_to_sheet (rom_data chr_data : bytes) (bank_number : Z)
    (palette_arg : list Z) (tiles_per_row scale : Z) :
  0 <= bank_number ->
  extract_chr_bank rom_data bank_number = Ok chr_data ->
  length palette_arg = 4%nat -> 1 <= tiles_per_row -> 1 <= scale ->
  exists sheet,
    main (Some chr_data) palette_arg tiles_per_row scale
    = ([Stdout_converting 512; File_saved sheet; Stdout_saved;
        Stdout_dimensions (width sheet) (height sheet)], Exit_ok) /\
    width sheet = tiles_per_row * 8 * scale /\
    (tiles_per_row = 16 -> height sheet = 256 * scale).
Proof.
  intros Hb Hbank Hpal Ht Hs.
  assert (Hlen : len chr_data = 8192).
  { unfold extract_chr_bank, get_prg_bank_address in Hbank. cbv zeta in Hbank.
    unfold extract_chr in Hbank.
    destruct (_ >? len rom_data) eqn:E; [discriminate|].
    injection Hbank as <-. rewrite slice_inside_length by lia. lia. }
  destruct (create_sprite_sheet_traced_composed chr_data
              (map resolve palette_arg) tiles_per_row scale)
    as (st & E & Hst); [now rewrite length_map|assumption..|].
  pose proof Hst as (_ & Hw & Hh & _).
  destruct (sheet_composed_size chr_data (map resolve palette_arg)
              tiles_per_row scale st Ht Hs Hst) as (Hwpos & Hhpos & _).
  exists (sheet st).
  rewrite (main_converts chr_data palette_arg (map resolve palette_arg)
             tiles_per_row scale st (get_palette_colors_map palette_arg) E
             Hwpos (Hhpos ltac:(rewrite Hlen; vm_compute; discriminate))).
  rewrite Hlen. split; [reflexivity|]. split; [rewrite Hw; lia|].
  intros ->. rewrite Hh. unfold sheet_rows. rewrite Hlen.
  change ((8192 / 16 + 16 - 1) / 16) with 32. lia.
Qed.

Lemma bank_to_sheet_witness :
  exists chr_data sheet,
    extract_chr_bank rom_bank_0 0 = Ok chr_data /\
    main (Some chr_data) [0x0f; 0x20; 0x28; 0x30] 16 1
    = ([Stdout_converting 512; File_saved sheet; Stdout_saved;
        Stdout_dimensions (width sheet) (height sheet)], Exit_ok) /\
    width sheet = 128 /\ height sheet = 256.
Proof.
  assert (E : extract_chr_bank rom_bank_0 0
              = Ok (slice rom_bank_0 16 (16 + 8192))) by reflexivity.
  destruct (bank_to_sheet rom_bank_0 _ 0 [0x0f; 0x20; 0x28; 0x30] 16 1
              ltac:(lia) E) as (sheet & Hmain & Hw & Hh);
    [reflexivity|lia|lia|].
  exists (slice rom_bank_0 16 (16 + 8192)), sheet.
  split; [exact E|]. split; [exact Hmain|].
  split; [exact Hw|]. apply Hh. reflexivity.
Defined.

(** ** [extract_chr.py] as a command *)

Lemma extract_main_raises (rom_data : bytes) (bank : option Z) (a size : Z) :
  a + size > len rom_data ->
  ExtractChr.main (Some rom_data) bank (Some a) size
  = ([ExtractChr.Stdout_extracting size a;
      ExtractChr.Stderr_error (ValueError_rom a size (len rom_data))],
     Exit_code 1).
Proof.
  intros H. unfold ExtractChr.main. cbv zeta.
  rewrite extract_chr_raises by assumption. reflexivity.
Qed.

Lemma extract_main_writes (rom_data : bytes) (bank : option Z) (a size : Z) :
  0 <= a -> 0 <= size -> a + size <= len rom_data ->
  ExtractChr.main (Some rom_data) bank (Some a) size
  = ([ExtractChr.Stdout_extracting size a;
      ExtractChr.File_written
        (take (Z.to_nat size) (drop (Z.to_nat a) rom_data));
      ExtractChr.Stdout_extracted size;
      ExtractChr.Stdout_tiles (size / 16)],
     Exit_ok).
Proof.
  intros Ha Hs H. unfold ExtractChr.main. cbv zeta.
  destruct (extract_chr_exact rom_data a size Ha Hs H) as [E L].
  rewrite E, L. reflexivity.
Qed.

(** X12. The extraction command: a given address takes precedence over a
    bank; a bank alone stands for the address [16 + bank*0x4000]; with
    neither it stops with status 1.  If [address + size] exceeds the ROM
    it reports the error (address, size, ROM size) and ends with status 1;
    otherwise, for [address >= 0] and [size >= 0], it writes exactly the
    [size] bytes from [address] on and reports [size] bytes and
    [size // 16] tiles. *)
Theorem extract_main_spec (rom_data : bytes) (size : Z) :
  (forall bank a,
     ExtractChr.main (Some rom_data) bank (Some a) size
     = ExtractChr.main (Some rom_data) None (Some a) size) /\
  (forall b,
     ExtractChr.main (Some rom_data) (Some b) None size
     = ExtractChr.main (Some rom_data) None (Some (16 + b * 0x4000)) size) /\
  ExtractChr.main (Some rom_data) None None size
  = ([ExtractChr.Stderr_need_bank_or_address], Exit_code 1) /\
  (forall a, a + size > len rom_data ->
     ExtractChr.main (Some rom_data) None (Some a) size
     = ([ExtractChr.Stdout_extracting size a;
         ExtractChr.Stderr_error (ValueError_rom a size (len rom_data))],
        Exit_code 1)) /\
  (forall a, 0 <= a -> 0 <= size -> a + size <= len rom_data ->
     ExtractChr.main (Some rom_data) None (Some a) size
     = ([ExtractChr.Stdout_extracting size a;
         ExtractChr.File_written
           (take (Z.to_nat size) (drop (Z.to_nat a) rom_data));
         ExtractChr.Stdout_extracted size;
         ExtractChr.Stdout_tiles (size / 16)],
        Exit_ok)).
Proof.
  split; [reflexivity|]. split; [reflexivity|]. split; [reflexivity|].
  split; [intros a; apply extract_main_raises|intros a; apply extract_main_writes].
Qed.

Lemma extract_main_spec_witness :
  ExtractChr.main (Some rom_2) None (Some 1) 1
  = ([ExtractChr.Stdout_extracting 1 1; ExtractChr.File_written [x2b];
      ExtractChr.Stdout_extracted 1; ExtractChr.Stdout_tiles 0], Exit_ok) /\
  ExtractChr.main (Some rom_2) None (Some 1) 100
  = ([ExtractChr.Stdout_extracting 100 1;
      ExtractChr.Stderr_error (ValueError_rom 1 100 2)], Exit_code 1).
Proof.
  destruct (extract_main_spec rom_2 1) as (_ & _ & _ & _ & Hok).
  destruct (extract_main_spec rom_2 100) as (_ & _ & _ & Herr & _).
  split.
  - apply (Hok 1); [lia|lia|vm_compute; discriminate].
  - apply (Herr 1). vm_compute. reflexivity.
Defined.

(** X13. The extraction command writes its output file exactly when it
    ends normally, and it never ends with an uncaught exception: the only
    error [extract_chr] raises is the [ValueError] that [main] catches. *)
Theorem extract_main_writes_iff_ok (rom : option bytes) (bank address : option Z)
    (size : Z) :
  let '(out, status) := ExtractChr.main rom bank address size in
  (status = Exit_ok <-> written_file out) /\
  (forall e, status <> Exit_uncaught e).
Proof.
  unfold ExtractChr.main, written_file. cbv zeta.
  destruct rom as [rom_data|].
  2:{ split; [|discriminate]. split; [discriminate|].
      intros (c & [H|[]]). discriminate. }
  destruct (match address with
            | Some a => Some a
            | None => match bank with
                      | Some b => Some (get_prg_bank_address b)
                      | None => None
                      end
            end) as [a|].
  2:{ split; [|discriminate]. split; [discriminate|].
      intros (c & [H|[]]). discriminate. }
  unfold extract_chr. destruct (a + size >? len rom_data); simpl.
  - split; [|discriminate]. split; [discriminate|].
    intros (c & [H|[H|[]]]); discriminate.
  - split; [|discriminate]. split; [intros _|reflexivity].
    eexists. right. left. reflexivity.
Qed.

(** ** [extract_all.py] *)

Lemma run_extractor_bank (rom : bytes) (b : Z) :
  0 <= b ->
  ExtractAll.run_extractor (Some rom) (ExtractAll.mkBankInfo b None 8192)
  = if 16 + b * 0x4000 + 8192 <=? len rom
    then (true, Some (take (Z.to_nat 8192)
                           (drop (Z.to_nat (16 + b * 0x4000)) rom)))
    else (false, None).
Proof.
  intros Hb. unfold ExtractAll.run_extractor. cbn [ExtractAll.bank
    ExtractAll.address ExtractAll.size].
  change (ExtractChr.main (Some rom) (Some b) None 8192)
    with (ExtractChr.main (Some rom) None (Some (16 + b * 0x4000)) 8192).
  destruct (16 + b * 0x4000 + 8192 <=? len rom) eqn:E.
  - rewrite extract_main_writes by lia. reflexivity.
  - rewrite extract_main_raises by lia. reflexivity.
Qed.

(** X14. [extract_all] asks for the first 8 KiB of PRG banks 10, 11 and
    12 in that order; each one the ROM holds is written to its own raw
    file, each one it does not hold only gives a warning, and the result
    is [True] either way, so its [main] ends normally even on a ROM too
    short for any bank (shorter than 172048 bytes). *)
Theorem extract_all_spec (rom : bytes) :
  ExtractAll.extract_all (Some rom)
  = (bank_event rom ExtractAll.player_sprites 10
     ++ bank_event rom ExtractAll.bg_tiles_11_12 11
     ++ bank_event rom ExtractAll.bg_tiles_12_13 12, true) /\
  snd (ExtractAll.main (Some rom)) = Exit_ok /\
  (len rom < 172048 ->
   ExtractAll.main (Some rom)
   = ([ExtractAll.Warning_failed ExtractAll.player_sprites;
       ExtractAll.Warning_failed ExtractAll.bg_tiles_11_12;
       ExtractAll.Warning_failed ExtractAll.bg_tiles_12_13], Exit_ok)).
Proof.
  assert (E : ExtractAll.extract_all (Some rom)
              = (bank_event rom ExtractAll.player_sprites 10
                 ++ bank_event rom ExtractAll.bg_tiles_11_12 11
                 ++ bank_event rom ExtractAll.bg_tiles_12_13 12, true)).
  { unfold ExtractAll.extract_all, ExtractAll.CHR_BANKS.
    cbn [flat_map]. rewrite !run_extractor_bank by lia.
    unfold bank_event.
    destruct (16 + 10 * 0x4000 + 8192 <=? len rom),
      (16 + 11 * 0x4000 + 8192 <=? len rom),
      (16 + 12 * 0x4000 + 8192 <=? len rom); reflexivity. }
  split; [exact E|]. unfold ExtractAll.main. rewrite E.
  split; [reflexivity|]. intros Hshort. unfold bank_event.
  replace (16 + 10 * 0x4000 + 8192 <=? len rom) with false
    by (symmetry; apply Z.leb_gt; lia).
  replace (16 + 11 * 0x4000 + 8192 <=? len rom) with false
    by (symmetry; apply Z.leb_gt; lia).
  replace (16 + 12 * 0x4000 + 8192 <=? len rom) with false
    by (symmetry; apply Z.leb_gt; lia).
  reflexivity.
Qed.

Lemma extract_all_spec_witness :
  ExtractAll.main (Some rom_2)
  = ([ExtractAll.Warning_failed ExtractAll.player_sprites;
      ExtractAll.Warning_failed ExtractAll.bg_tiles_11_12;
      ExtractAll.Warning_failed ExtractAll.bg_tiles_12_13], Exit_ok).
Proof.
  destruct (extract_all_spec rom_2) as (_ & _ & H).
  apply H. vm_compute. reflexivity.
Defined.

(** ** Scale 0 *)

Lemma for_each_unchanged {S} (xs : list Z) (body : Z -> S -> result S) s :
  (forall x, In x xs -> body x s = Ok s) -> for_each xs body s = Ok s.
Proof.
  induction xs as [|x xs IH]; intros H; simpl; [reflexivity|].
  rewrite (H x) by now left. simpl. apply IH. intros; apply H; now right.
Qed.

Lemma create_tile_image_scale_0 (tile_pixels : list (list Z))
    (palette : list color) :
  index_grid tile_pixels -> length palette = 4%nat ->
  create_tile_image tile_pixels palette 0 = Ok (mkImage 0 0 []).
Proof.
  intros Hgrid Hpal. unfold create_tile_image.
  change (new (8 * 0) (8 * 0)) with (Ok (mkImage 0 0 [])). cbn [bind].
  apply for_each_unchanged. intros y Hy. apply range_elem in Hy.
  apply for_each_unchanged. intros x Hx. apply range_elem in Hx.
  destruct (index_grid_cell tile_pixels x y Hgrid Hx Hy)
    as (row & v & Hrow & Hv & Hrange).
  destruct (lookup_lt_is_Some_2 palette (Z.to_nat v)) as [c Hc]; [lia|].
  rewrite (index_Ok _ y row) by (lia || assumption). cbn [bind].
  rewrite (index_Ok _ x v) by (lia || assumption). cbn [bind].
  rewrite (index_Ok _ v c) by (lia || assumption). reflexivity.
Qed.

(** X15. Scale 0 is not rejected: for a valid grid and a 4-colour palette
    [create_tile_image] returns an empty 0x0 image, and for every buffer
    and every [tiles_per_row] other than 0 [create_sprite_sheet] returns an
    empty 0x0 sheet, after one paste call per tile. *)
Theorem scale_zero_is_empty (chr_data : bytes) (palette : list color)
    (tiles_per_row : Z) :
  length palette = 4%nat ->
  (forall tile_pixels, index_grid tile_pixels ->
     create_tile_image tile_pixels palette 0 = Ok (mkImage 0 0 [])) /\
  (tiles_per_row <> 0 ->
   exists st,
     create_sprite_sheet_traced chr_data palette tiles_per_row 0 = Ok st /\
     create_sprite_sheet chr_data palette tiles_per_row 0 = Ok (mkImage 0 0 []) /\
     sheet st = mkImage 0 0 [] /\
     len (pasted st) = len chr_data / 16).
Proof.
  intros Hpal.
  split; [intros g Hg; now apply create_tile_image_scale_0|].
  intros Ht. unfold create_sprite_sheet, create_sprite_sheet_traced. cbv zeta.
  rewrite floordiv_Ok by assumption. cbn [bind].
  assert (Hn : 0 <= len chr_data / 16)
    by (apply Z.div_pos; [apply len_nonneg|lia]).
  replace (tiles_per_row * (8 * 0)) with 0 by lia.
  replace ((len chr_data / 16 + tiles_per_row - 1) / tiles_per_row * (8 * 0))
    with 0 by lia.
  change (new 0 0) with (Ok (mkImage 0 0 [])). cbn [bind].
  destruct (for_range_invariant
              (fun k st => sheet st = mkImage 0 0 [] /\ len (pasted st) = k)
              (len chr_data / 16)
              (fun tile_idx st =>
                 let* tile_pixels := decode_tile chr_data tile_idx in
                 let* tile_img := create_tile_image tile_pixels palette 0 in
                 let* row := floordiv tile_idx tiles_per_row in
                 let* col := modulo tile_idx tiles_per_row in
                 Ok (mkSheetState
                       (paste (sheet st) tile_img (col * (8 * 0)) (row * (8 * 0)))
                       (pasted st ++
                          [(tile_idx, col * (8 * 0), row * (8 * 0))])))
              (mkSheetState (mkImage 0 0 []) [])) as (st & E & Hsheet & Hlog).
  - split; reflexivity.
  - intros k st Hk [Hsheet Hlog].
    rewrite decode_tile_inside by (try apply num_tiles_inside; lia).
    cbn [bind].
    rewrite create_tile_image_scale_0
      by (assumption || apply tile_grid_index_grid).
    cbn [bind]. rewrite floordiv_Ok by assumption. cbn [bind].
    unfold modulo. destruct (tiles_per_row =? 0) eqn:E0; [lia|]. cbn [bind].
    eexists. split; [reflexivity|]. simpl. rewrite Hsheet. split; [reflexivity|].
    unfold len in *. rewrite length_app. simpl. lia.
  - exists st. rewrite E. cbn [bind]. rewrite Hsheet.
    repeat split; try reflexivity. lia.
Qed.

Lemma scale_zero_is_empty_witness :
  create_sprite_sheet buffer_17 default_palette 16 0 = Ok (mkImage 0 0 []).
Proof.
  destruct (scale_zero_is_empty buffer_17 default_palette 16) as [_ H];
    [reflexivity|].
  destruct H as (st & _ & E & _); [lia|exact E].
Defined.

(** ** Converter [main]: output files *)




